(** * claude-color: the APCA contrast evaluator ([src/lib/apca.ts]) and the
      [check_contrast] tool handler of the MCP server entry point.

    ECMAScript numbers are IEEE 754 binary64 values.  They are modelled by
    [spec_float] at precision 53 and maximal exponent 1024, with the
    operations of the standard library's executable specification
    ([SFmul], [SFdiv], [SFsub], [SFcompare], ...), so every definition
    below evaluates on concrete inputs. *)

From Stdlib Require Import ZArith Bool List Lia.
From Stdlib Require Import Strings.String Strings.Ascii.
From Stdlib Require Import Numbers.DecimalString.
From Stdlib Require Import Floats.SpecFloat.
Import ListNotations.

#[local] Set Warnings "-register-all".

Local Open Scope Z_scope.

(* ================================================================== *)
(** * ECMAScript numbers *)
(* ================================================================== *)

Module Number.

Definition prec : Z := 53.
Definition emax : Z := 1024.

(** A JS [number].  The values a program can hold are the canonical ones
    ([is_number]); the operations are defined on all of [spec_float]. *)
Definition number : Type := spec_float.

Definition is_number (x : number) : bool := valid_binary prec emax x.

(** An integer literal such as [24] or [75]. *)
Definition of_Z (z : Z) : number := binary_normalize prec emax z 0 false.

Definition NaN : number := S754_nan.

(** [a >= b], [a <= b] and [a < b]: false as soon as one side is NaN. *)
Definition geb (a b : number) : bool := SFleb b a.
Definition leb (a b : number) : bool := SFleb a b.
Definition ltb (a b : number) : bool := SFltb a b.

Definition is_finite (x : number) : bool :=
  match x with
  | S754_zero _ | S754_finite _ _ _ => true
  | S754_infinity _ | S754_nan => false
  end.

Definition neg (a : number) : number := SFopp a.
Definition sub (a b : number) : number := SFsub prec emax a b.
Definition mul (a b : number) : number := SFmul prec emax a b.
Definition div (a b : number) : number := SFdiv prec emax a b.

(** [Math.abs]. *)
Definition Math_abs (x : number) : number := SFabs x.

(** [floor (v / 2^k + 1/2)] for an integer numerator [v] and [0 < k]. *)
Definition round_half_up (v k : Z) : Z := (2 * v + 2 ^ k) / 2 ^ (k + 1).

(** [Math.round] (ECMA-262 21.3.2.28): a value that is not finite or is
    already integral is returned as it is; a value of [[-0.5, 0)] gives
    [-0] and one of [(0, 0.5)] gives [+0]; any other value gives the
    nearest integer, the one closer to +infinity on a tie. *)
Definition Math_round (x : number) : number :=
  match x with
  | S754_finite s m e =>
      if 0 <=? e then x
      else
        let n := round_half_up (cond_Zopp s (Zpos m)) (- e) in
        if n =? 0 then S754_zero s else of_Z n
  | _ => x
  end.

(** Decimal digits of a natural number, ["0"] for zero. *)
Definition digits (n : Z) : string :=
  NilZero.string_of_uint (N.to_uint (Z.to_N n)).

Fixpoint zeros (k : nat) : string :=
  match k with
  | O => EmptyString
  | S k' => String "0"%char (zeros k')
  end.

(** Steps 10-11 of [Number.prototype.toFixed]: the digits of [n] with a
    decimal point before the last [f] of them, left-padded with zeros. *)
Definition fixed_digits (n : Z) (f : nat) : string :=
  let m := digits n in
  match f with
  | O => m
  | _ =>
      let k := String.length m in
      let m' := if Nat.leb k f then (zeros (f + 1 - k) ++ m)%string else m in
      let k' := String.length m' in
      (substring 0 (k' - f) m' ++ "." ++ substring (k' - f) f m')%string
  end.

(** The integer [n] for which [n / 10^f - |x|] is closest to zero, the
    larger one on a tie, for the finite value [|x| = m * 2^e]. *)
Definition fixed_integer (m : positive) (e : Z) (f : nat) : Z :=
  let scaled := Zpos m * 10 ^ Z.of_nat f in
  if 0 <=? e then scaled * 2 ^ e else round_half_up scaled (- e).

(** [10^21 <= m * 2^e]. *)
Definition at_least_1e21 (m : positive) (e : Z) : bool :=
  if 0 <=? e then 10 ^ 21 <=? Zpos m * 2 ^ e
  else 10 ^ 21 * 2 ^ (- e) <=? Zpos m.

Section ToString.
(** [Number::toString] (ECMA-262 6.1.6.1.20), the shortest decimal
    that reads back as the same number, is a builtin of the host.  It
    is taken as it is. *)
Variable Number_toString : number -> string.

(** [Number.prototype.toFixed] (ECMA-262 21.1.3.3) with [f] fraction
    digits. *)
Definition toFixed (x : number) (f : nat) : string :=
  match x with
  | S754_nan | S754_infinity _ => Number_toString x
  | S754_zero _ => fixed_digits 0 f
  | S754_finite s m e =>
      if at_least_1e21 m e
      then ((if s then "-" else EmptyString) ++
            Number_toString (S754_finite false m e))%string
      else ((if s then "-" else EmptyString) ++
            fixed_digits (fixed_integer m e f) f)%string
  end.
End ToString.

(** [Number::toString] on the values every host prints the same way:
    NaN, the infinities, the zeros and the integers below [10^21].
    Other values are outside this printer and give the digits of their
    integer part; it stands in for the builtin where a closed example
    needs one. *)
Definition toString_integral (x : number) : string :=
  match x with
  | S754_nan => "NaN"
  | S754_infinity s => if s then "-Infinity" else "Infinity"
  | S754_zero _ => "0"
  | S754_finite s m e =>
      let n := if 0 <=? e then Zpos m * 2 ^ e else Zpos m / 2 ^ (- e) in
      ((if s then "-" else EmptyString) ++ digits n)%string
  end.

(** A number that is not NaN has a place in a lexicographic order: its
    class (negative infinity, negative, zero, positive, infinity), then its
    exponent and its mantissa, both negated for a negative number. *)
Definition key (x : number) : option (Z * Z * Z) :=
  match x with
  | S754_nan => None
  | S754_zero _ => Some (0, 0, 0)
  | S754_infinity s => Some (if s then -2 else 2, 0, 0)
  | S754_finite s m e =>
      Some (if s then (-1, - e, Zneg m) else (1, e, Zpos m))
  end.

Definition lex_compare (a b : Z * Z * Z) : comparison :=
  let '(a1, a2, a3) := a in
  let '(b1, b2, b3) := b in
  match a1 ?= b1 with
  | Eq => match a2 ?= b2 with Eq => a3 ?= b3 | r => r end
  | r => r
  end.

Definition lex_lt (a b : Z * Z * Z) : Prop :=
  let '(a1, a2, a3) := a in
  let '(b1, b2, b3) := b in
  a1 < b1 \/ (a1 = b1 /\ (a2 < b2 \/ (a2 = b2 /\ a3 < b3))).

Definition lex_le (a b : Z * Z * Z) : Prop := lex_lt a b \/ a = b.

(** A number whose sign bit is clear, or NaN: what [Math.abs] leaves as it
    is. *)
Definition sign_clear (x : number) : Prop :=
  match x with
  | S754_nan => True
  | S754_zero s | S754_infinity s | S754_finite s _ _ => s = false
  end.

End Number.

(* ================================================================== *)
(** * What the evaluator takes from outside the repository *)
(* ================================================================== *)

(** [calcAPCA] is the contrast primitive of the [apca-w3] package: it parses
    the two colours and returns the signed lightness contrast; [None] stands
    for an exception, should it throw one.  [Number_toString] is the host's
    [Number::toString], used by template literals and by [JSON.stringify]. *)
Class Externals : Type := {
  calcAPCA : string -> string -> option Number.number;
  Number_toString : Number.number -> string
}.

(* ================================================================== *)
(** * src/lib/apca.ts *)
(* ================================================================== *)

Module Apca.

Import Number.

Inductive UseCase : Type :=
| body_text | large_text | ui_component | non_text | placeholder | disabled.

Inductive FontWeight : Type := normal | bold.

Inductive Polarity : Type := dark_on_light | light_on_dark.

Inductive Rating : Type := rating_AAA | rating_AA | rating_A | rating_fail.

Record ContrastResult : Type := {
  lc : number;
  lcAbsolute : number;
  passes : bool;
  minimumLc : number;
  polarity : Polarity;
  recommendation : option string;
  rating : Rating
}.

(** The string a use case is at run time. *)
Definition UseCase_text (u : UseCase) : string :=
  match u with
  | body_text => "body-text"
  | large_text => "large-text"
  | ui_component => "ui-component"
  | non_text => "non-text"
  | placeholder => "placeholder"
  | disabled => "disabled"
  end.

Definition FontWeight_text (w : FontWeight) : string :=
  match w with normal => "normal" | bold => "bold" end.

Definition Polarity_text (p : Polarity) : string :=
  match p with
  | dark_on_light => "dark-on-light"
  | light_on_dark => "light-on-dark"
  end.

Definition Rating_text (r : Rating) : string :=
  match r with
  | rating_AAA => "AAA"
  | rating_AA => "AA"
  | rating_A => "A"
  | rating_fail => "fail"
  end.

Definition UseCase_eqb (a b : UseCase) : bool :=
  match a, b with
  | body_text, body_text | large_text, large_text
  | ui_component, ui_component | non_text, non_text
  | placeholder, placeholder | disabled, disabled => true
  | _, _ => false
  end.

Definition FontWeight_eqb (a b : FontWeight) : bool :=
  match a, b with
  | normal, normal | bold, bold => true
  | _, _ => false
  end.

(** [USE_CASE_THRESHOLDS : Record<UseCase, number>]. *)
Definition USE_CASE_THRESHOLDS (u : UseCase) : number :=
  match u with
  | body_text => of_Z 75
  | large_text => of_Z 60
  | ui_component => of_Z 60
  | non_text => of_Z 45
  | placeholder => of_Z 45
  | disabled => of_Z 45
  end.

Definition getMinimumLc
    (useCase : UseCase) (fontSize : number) (fontWeight : FontWeight)
  : number :=
  if negb (UseCase_eqb useCase body_text) then USE_CASE_THRESHOLDS useCase
  else
    let isLarge := geb fontSize (of_Z 24) in
    let isBold := FontWeight_eqb fontWeight bold in
    if isLarge || isBold then of_Z 60
    else of_Z 75.

Definition getRating (lcAbsolute : number) : Rating :=
  if geb lcAbsolute (of_Z 90) then rating_AAA
  else if geb lcAbsolute (of_Z 75) then rating_AA
  else if geb lcAbsolute (of_Z 60) then rating_A
  else rating_fail.

(** The three template literals of [getRecommendation], over the texts
    already substituted for their holes. *)
Definition too_low_message (current minimum useCase : string) : string :=
  ("Contrast is too low for any text use. Current Lc: " ++ current ++
   ", need at least " ++ minimum ++ " for " ++ useCase ++ ".")%string.

Definition decorative_message (deficit useCase : string) : string :=
  ("Only suitable for decorative or non-essential elements. Increase contrast by ~"
   ++ deficit ++ " Lc points for " ++ useCase ++ ".")%string.

Definition increase_message (deficit : string) : string :=
  ("Increase contrast by ~" ++ deficit ++
   " Lc points. Try darkening the text or lightening the background (or vice versa for dark mode).")%string.

(** The optional third argument of [checkContrast]; an absent property is
    [None] and takes its default in the destructuring. *)
Record Options : Type := {
  fontSize : option number;
  fontWeight : option FontWeight;
  useCase : option UseCase
}.

Definition no_options : Options :=
  {| fontSize := None; fontWeight := None; useCase := None |}.

Definition or_default {T : Type} (d : T) (o : option T) : T :=
  match o with Some v => v | None => d end.

(** [Math.round(x * 10) / 10]. *)
Definition round1 (x : number) : number :=
  div (Math_round (mul x (of_Z 10))) (of_Z 10).

Section Evaluator.
Context {ext : Externals}.

Definition getRecommendation
    (passes : bool) (lcAbsolute minimumLc : number) (useCase : UseCase)
  : option string :=
  if passes then None
  else
    let deficit := sub minimumLc lcAbsolute in
    if ltb lcAbsolute (of_Z 15) then
      Some (too_low_message (toFixed Number_toString lcAbsolute 1)
                            (Number_toString minimumLc)
                            (UseCase_text useCase))
    else if ltb lcAbsolute (of_Z 45) then
      Some (decorative_message (toFixed Number_toString deficit 0)
                               (UseCase_text useCase))
    else
      Some (increase_message (toFixed Number_toString deficit 0)).

(** [None] when [calcAPCA] throws: nothing in [checkContrast] catches. *)
Definition checkContrast
    (foreground background : string) (options : Options)
  : option ContrastResult :=
  let fontSize := or_default (of_Z 16) options.(fontSize) in
  let fontWeight := or_default normal options.(fontWeight) in
  let useCase := or_default body_text options.(useCase) in
  match calcAPCA foreground background with
  | None => None
  | Some lc =>
      let lcAbsolute := Math_abs lc in
      let polarity :=
        if geb lc (of_Z 0) then dark_on_light else light_on_dark in
      let minimumLc := getMinimumLc useCase fontSize fontWeight in
      let passes := geb lcAbsolute minimumLc in
      let rating := getRating lcAbsolute in
      let recommendation :=
        getRecommendation passes lcAbsolute minimumLc useCase in
      Some {| lc := round1 lc;
              lcAbsolute := round1 lcAbsolute;
              passes := passes;
              minimumLc := minimumLc;
              polarity := polarity;
              recommendation := recommendation;
              rating := rating |}
  end.
End Evaluator.

(** The order of the rating tiers, [fail < A < AA < AAA]. *)
Definition Rating_rank (r : Rating) : nat :=
  match r with
  | rating_fail => 0
  | rating_A => 1
  | rating_AA => 2
  | rating_AAA => 3
  end.


End Apca.

(* ================================================================== *)
(** * The server entry point: the [check_contrast] tool *)
(* ================================================================== *)

Module Server.

Import Number.

(** JSON values, as [JSON.stringify] walks them; an object keeps its
    properties in insertion order. *)
Inductive json : Type :=
| JNull
| JBool (b : bool)
| JNumber (x : number)
| JString (s : string)
| JArray (items : list json)
| JObject (members : list (string * json)).

Definition dquote : string := String "034"%char EmptyString.
Definition newline : string := String "010"%char EmptyString.
Definition backslash : string := String "092"%char EmptyString.

Definition hex_digit (n : nat) : ascii :=
  nth n ["0"; "1"; "2"; "3"; "4"; "5"; "6"; "7"; "8"; "9";
         "a"; "b"; "c"; "d"; "e"; "f"]%char "0"%char.

(** One code unit of [QuoteJSONString] (ECMA-262 25.5.2.3). *)
Definition escape_char (c : ascii) : string :=
  let n := nat_of_ascii c in
  if Nat.eqb n 8 then (backslash ++ "b")%string
  else if Nat.eqb n 9 then (backslash ++ "t")%string
  else if Nat.eqb n 10 then (backslash ++ "n")%string
  else if Nat.eqb n 12 then (backslash ++ "f")%string
  else if Nat.eqb n 13 then (backslash ++ "r")%string
  else if Nat.eqb n 34 then (backslash ++ dquote)%string
  else if Nat.eqb n 92 then (backslash ++ backslash)%string
  else if Nat.ltb n 32 then
    (backslash ++ "u00" ++
     String (hex_digit (Nat.div n 16))
       (String (hex_digit (Nat.modulo n 16)) EmptyString))%string
  else String c EmptyString.

Fixpoint escape (s : string) : string :=
  match s with
  | EmptyString => EmptyString
  | String c s' => (escape_char c ++ escape s')%string
  end.

Definition QuoteJSONString (s : string) : string :=
  (dquote ++ escape s ++ dquote)%string.

Definition is_empty (s : string) : bool :=
  match s with EmptyString => true | String _ _ => false end.

(** The closing steps of [SerializeJSONObject] and [SerializeJSONArray]:
    [partial] holds the serialized members, [stepback] the indentation
    outside the brackets and [indent] the one inside. *)
Definition wrap (opening closing gap stepback indent : string)
    (partial : list string) : string :=
  match partial with
  | [] => (opening ++ closing)%string
  | _ =>
      if is_empty gap
      then (opening ++ String.concat "," partial ++ closing)%string
      else (opening ++ newline ++ indent ++
            String.concat ("," ++ newline ++ indent) partial ++
            newline ++ stepback ++ closing)%string
  end.

Section Stringify.
Context {ext : Externals}.

(** [SerializeJSONProperty] (ECMA-262 25.5.2.2) for a gap and the current
    indentation. *)
Fixpoint SerializeJSONProperty (gap indent : string) (v : json)
  {struct v} : string :=
  match v with
  | JNull => "null"
  | JBool b => if b then "true" else "false"
  | JNumber x => if is_finite x then Number_toString x else "null"
  | JString s => QuoteJSONString s
  | JArray items =>
      let inner := (indent ++ gap)%string in
      wrap "[" "]" gap indent inner
        ((fix elements (l : list json) : list string :=
            match l with
            | [] => []
            | y :: l' => SerializeJSONProperty gap inner y :: elements l'
            end) items)
  | JObject members =>
      let inner := (indent ++ gap)%string in
      wrap "{" "}" gap indent inner
        ((fix properties (l : list (string * json)) : list string :=
            match l with
            | [] => []
            | (k, y) :: l' =>
                (QuoteJSONString k ++ ":" ++
                 (if is_empty gap then EmptyString else " ") ++
                 SerializeJSONProperty gap inner y)%string
                :: properties l'
            end) members)
  end.

(** [JSON.stringify(value, null, 2)]. *)
Definition JSON_stringify_2 (v : json) : string :=
  SerializeJSONProperty "  " EmptyString v.

(** [JSON.stringify(value)]. *)
Definition JSON_stringify (v : json) : string :=
  SerializeJSONProperty EmptyString EmptyString v.

End Stringify.

(** The arguments of a [check_contrast] call as the client sends them. *)
Record CheckContrastInput : Type := {
  foreground : string;
  background : string;
  fontSize : option number;
  fontWeight : option Apca.FontWeight;
  useCase : option Apca.UseCase
}.

(** The object the input schema hands to the handler: the optional fields
    carry their defaults, in the order of the schema. *)
Definition parse_input (i : CheckContrastInput) : json :=
  JObject
    [ ("foreground", JString i.(foreground));
      ("background", JString i.(background));
      ("fontSize", JNumber (Apca.or_default (of_Z 16) i.(fontSize)));
      ("fontWeight",
       JString (Apca.FontWeight_text
                  (Apca.or_default Apca.normal i.(fontWeight))));
      ("useCase",
       JString (Apca.UseCase_text
                  (Apca.or_default Apca.body_text i.(useCase)))) ]%string.

Record ContentItem : Type := { type : string; text : string }.

Record ToolResult : Type := { content : list ContentItem }.

(** The object literal the handler serializes. *)
Definition check_contrast_payload (args : json) : json :=
  JObject
    [ ("status", JString "not_implemented");
      ("message",
       JString "APCA contrast checking will be implemented in issue #2");
      ("input", args) ]%string.

(** The callback registered for [check_contrast]. *)
Definition check_contrast_handler {ext : Externals} (args : json)
  : ToolResult :=
  {| content :=
       [ {| type := "text";
            text := JSON_stringify_2 (check_contrast_payload args) |} ] |}.

(** The tool as a client sees it: schema, then handler. *)
Definition check_contrast_tool {ext : Externals} (i : CheckContrastInput)
  : ToolResult :=
  check_contrast_handler (parse_input i).

(** The output the specification asks of the tool (section 6), to set
    against what the handler returns: the result of the evaluator as a JSON
    object, with the properties of the interface in its order and the
    recommendation [null] when the pair passes.  No code of the repository
    builds it. *)
Definition spec_ContrastResult_json (r : Apca.ContrastResult) : json :=
  JObject
    [ ("lc", JNumber r.(Apca.lc));
      ("lcAbsolute", JNumber r.(Apca.lcAbsolute));
      ("passes", JBool r.(Apca.passes));
      ("minimumLc", JNumber r.(Apca.minimumLc));
      ("polarity", JString (Apca.Polarity_text r.(Apca.polarity)));
      ("recommendation",
       match r.(Apca.recommendation) with
       | Some s => JString s
       | None => JNull
       end);
      ("rating", JString (Apca.Rating_text r.(Apca.rating))) ]%string.

End Server.

(* ================================================================== *)
(** * The server entry point: the other four tools *)
(* ================================================================== *)

Module Tools.

Import Number Server.

(** The object literal every one of the four callbacks serializes; they
    differ by the message only. *)
Definition not_implemented (message : string) (args : json) : json :=
  JObject
    [ ("status", JString "not_implemented");
      ("message", JString message);
      ("input", args) ]%string.

Definition answer {ext : Externals} (payload : json) : ToolResult :=
  {| content := [ {| type := "text"; text := JSON_stringify_2 payload |} ] |}.

(** The callback registered for [generate_palette]. *)
Definition generate_palette_handler {ext : Externals} (args : json)
  : ToolResult :=
  answer (not_implemented
            "Palette generation will be implemented in issue #3" args).

(** The callback registered for [simulate_colorblind]. *)
Definition simulate_colorblind_handler {ext : Externals} (args : json)
  : ToolResult :=
  answer (not_implemented
            "Colorblind simulation will be implemented in issue #5" args).

(** The callback registered for [export_tokens]. *)
Definition export_tokens_handler {ext : Externals} (args : json)
  : ToolResult :=
  answer (not_implemented "Export will be implemented in issue #6" args).

(** The callback registered for [analyze_colors]. *)
Definition analyze_colors_handler {ext : Externals} (args : json)
  : ToolResult :=
  answer (not_implemented
            "Color analysis will be implemented in issue #7" args).

(** The five tools the server registers, in the order of registration. *)
Inductive Tool : Type :=
| check_contrast | generate_palette | simulate_colorblind
| export_tokens | analyze_colors.

Definition Tool_name (t : Tool) : string :=
  match t with
  | check_contrast => "check_contrast"
  | generate_palette => "generate_palette"
  | simulate_colorblind => "simulate_colorblind"
  | export_tokens => "export_tokens"
  | analyze_colors => "analyze_colors"
  end.

(** The callback a tool name is registered with. *)
Definition handler {ext : Externals} (t : Tool) : json -> ToolResult :=
  match t with
  | check_contrast => check_contrast_handler
  | generate_palette => generate_palette_handler
  | simulate_colorblind => simulate_colorblind_handler
  | export_tokens => export_tokens_handler
  | analyze_colors => analyze_colors_handler
  end.

End Tools.

(* ================================================================== *)
(** * Signs of numbers *)
(* ================================================================== *)

Module NumberSign.

Import Number.

(** A number whose sign bit is set, or NaN. *)
Definition sign_set (x : number) : Prop :=
  match x with
  | S754_nan => True
  | S754_zero s | S754_infinity s | S754_finite s _ _ => s = true
  end.

End NumberSign.

(* ================================================================== *)
(** * Bounds that rounding to one decimal keeps *)
(* ================================================================== *)

Module Bounds.

Import Number.

(** A number that is at least the normal number [mT * 2^eT]: positive
    infinity, or a positive normal number that is not below it in the
    order of exponents and mantissas. *)
Definition at_least (mT eT : Z) (x : number) : Prop :=
  match x with
  | S754_finite false m e =>
      (eT < e \/ (e = eT /\ mT <= Zpos m)) /\ 2 ^ 52 <= Zpos m < 2 ^ 53
  | S754_infinity false => True
  | _ => False
  end.

(** The mantissa of the number ten, [10 = m10 * 2^(-49)]. *)
Definition m10 : Z := 5629499534213120.

(** An integer [T] for which both [T] and [10 * T] are positive normal
    numbers, exactly: what a bound has to be for [Math.round(x * 10) / 10]
    to keep it.  The check is a computation. *)
Definition integral_bound (T : Z) : bool :=
  match of_Z T, of_Z (10 * T) with
  | S754_finite false pT eT, S754_finite false pT' eT' =>
      let k := eT' - eT + 49 in
      (2 ^ 52 <=? Zpos pT) && (Zpos pT <? 2 ^ 53) &&
      (2 ^ 52 <=? Zpos pT') && (Zpos pT' <? 2 ^ 53) &&
      (-1074 <? eT) && (eT <=? 0) &&
      (-1070 <=? eT') && (eT' <=? 0) && (0 <=? k) &&
      (Zpos pT * m10 =? Zpos pT' * 2 ^ k) &&
      (Zpos pT' =? 10 * T * 2 ^ (- eT')) && (0 <? T)
  | _, _ => false
  end.

(** A number with a clear sign bit that is at most the normal number
    [mT * 2^eT]: a zero, or a positive canonical number that is not above
    it in the order of exponents and mantissas. *)
Definition at_most (mT eT : Z) (x : number) : Prop :=
  match x with
  | S754_zero _ => True
  | S754_finite false m e =>
      (e < eT \/ (e = eT /\ Zpos m <= mT)) /\ Zpos m < 2 ^ 53 /\
      (-1074 < e -> 2 ^ 52 <= Zpos m)
  | _ => False
  end.

(** The exponent of a finite number is at least [ex]. *)
Definition exponent_from (ex : Z) (x : number) : Prop :=
  match x with
  | S754_finite _ _ e => ex <= e
  | _ => True
  end.

End Bounds.

(* ================================================================== *)
(** * Stand-ins for closed examples *)
(* ================================================================== *)

Module Standin.

Import Number.

(** A contrast primitive that knows two colours: [score] for black on
    white, its negation for white on black, zero for either colour on
    itself, and an exception for any other string. *)
Definition two_colour_APCA (score : number) (fg bg : string)
  : option number :=
  if (String.eqb fg "#000000" && String.eqb bg "#ffffff")%bool
  then Some score
  else if (String.eqb fg "#ffffff" && String.eqb bg "#000000")%bool
  then Some (neg score)
  else if (String.eqb fg bg &&
           (String.eqb fg "#000000" || String.eqb fg "#ffffff"))%bool
  then Some (of_Z 0)
  else None.

Definition two_colour (score : number) : Externals :=
  {| calcAPCA := two_colour_APCA score;
     Number_toString := toString_integral |}.



(** The decimal literal [n / 10^d]. *)
Definition decimal (n : Z) (d : nat) : number :=
  div (of_Z n) (of_Z (10 ^ Z.of_nat d)).

End Standin.

(* ================================================================== *)
(** * The order of numbers *)
(* ================================================================== *)

Module NumberOrder.

Import Number.

Lemma lex_compare_lt (a b : Z * Z * Z) :
  lex_compare a b = Lt <-> lex_lt a b.
Proof.
  destruct a as [[a1 a2] a3], b as [[b1 b2] b3]; unfold lex_compare, lex_lt.
  destruct (Z.compare_spec a1 b1); destruct (Z.compare_spec a2 b2);
    destruct (Z.compare_spec a3 b3);
    split; intros; try discriminate; try reflexivity; lia.
Qed.

Lemma lex_compare_eq (a b : Z * Z * Z) :
  lex_compare a b = Eq <-> a = b.
Proof.
  destruct a as [[a1 a2] a3], b as [[b1 b2] b3]; unfold lex_compare.
  destruct (Z.compare_spec a1 b1); destruct (Z.compare_spec a2 b2);
    destruct (Z.compare_spec a3 b3);
    split; intros E; try discriminate; try reflexivity;
    try (injection E; intros; lia); subst; reflexivity.
Qed.

Lemma lex_compare_gt (a b : Z * Z * Z) :
  lex_compare a b = Gt <-> lex_lt b a.
Proof.
  destruct a as [[a1 a2] a3], b as [[b1 b2] b3]; unfold lex_compare, lex_lt.
  destruct (Z.compare_spec a1 b1); destruct (Z.compare_spec a2 b2);
    destruct (Z.compare_spec a3 b3);
    split; intros; try discriminate; try reflexivity; lia.
Qed.

(** [SFcompare] is the lexicographic comparison of the keys. *)
Lemma SFcompare_key (x y : number) :
  SFcompare x y =
  match key x, key y with
  | Some kx, Some ky => Some (lex_compare kx ky)
  | _, _ => None
  end.
Proof.
  destruct x as [sx | sx | | sx mx ex], y as [sy | sy | | sy my ey];
    try reflexivity;
    try (destruct sx; reflexivity);
    try (destruct sy; reflexivity);
    try (destruct sx, sy; reflexivity).
  destruct sx, sy; cbn [SFcompare key lex_compare]; try reflexivity.
  rewrite Z.compare_opp, (Z.compare_antisym ex ey).
  destruct (ex ?= ey); reflexivity.
Qed.

Lemma ltb_key (x y : number) :
  ltb x y = true <->
  exists kx ky, key x = Some kx /\ key y = Some ky /\ lex_lt kx ky.
Proof.
  unfold ltb, SFltb. rewrite SFcompare_key.
  destruct (key x) as [kx |], (key y) as [ky |];
    try (split; [discriminate | intros (? & ? & ? & ? & ?); discriminate]).
  split.
  - intros H. exists kx, ky. repeat split.
    apply lex_compare_lt. destruct (lex_compare kx ky); congruence.
  - intros (kx' & ky' & Hx & Hy & Hlt).
    injection Hx as <-. injection Hy as <-.
    apply lex_compare_lt in Hlt. now rewrite Hlt.
Qed.

Lemma leb_key (x y : number) :
  leb x y = true <->
  exists kx ky, key x = Some kx /\ key y = Some ky /\ lex_le kx ky.
Proof.
  unfold leb, SFleb. rewrite SFcompare_key.
  destruct (key x) as [kx |], (key y) as [ky |];
    try (split; [discriminate | intros (? & ? & ? & ? & ?); discriminate]).
  split.
  - intros H. exists kx, ky. repeat split.
    destruct (lex_compare kx ky) eqn:E; try discriminate.
    + right. now apply lex_compare_eq.
    + left. now apply lex_compare_lt.
  - intros (kx' & ky' & Hx & Hy & Hle).
    injection Hx as <-. injection Hy as <-.
    destruct Hle as [Hlt | Heq].
    + apply lex_compare_lt in Hlt. now rewrite Hlt.
    + apply lex_compare_eq in Heq. now rewrite Heq.
Qed.

Lemma geb_key (x y : number) :
  geb x y = true <->
  exists kx ky, key x = Some kx /\ key y = Some ky /\ lex_le ky kx.
Proof.
  unfold geb. fold (leb y x). rewrite leb_key.
  split; intros (a & b & Ha & Hb & H); exists b, a; auto.
Qed.

Lemma lex_lt_irrefl (a : Z * Z * Z) : ~ lex_lt a a.
Proof. destruct a as [[a1 a2] a3]; unfold lex_lt; lia. Qed.

Lemma lex_lt_trans (a b c : Z * Z * Z) :
  lex_lt a b -> lex_lt b c -> lex_lt a c.
Proof.
  destruct a as [[a1 a2] a3], b as [[b1 b2] b3], c as [[c1 c2] c3].
  unfold lex_lt; lia.
Qed.

Lemma lex_le_trans (a b c : Z * Z * Z) :
  lex_le a b -> lex_le b c -> lex_le a c.
Proof.
  intros [H1 | ->] [H2 | ->]; try (left; eauto using lex_lt_trans; fail).
  right; reflexivity.
Qed.

Lemma lex_lt_le_trans (a b c : Z * Z * Z) :
  lex_lt a b -> lex_le b c -> lex_lt a c.
Proof. intros H1 [H2 | ->]; eauto using lex_lt_trans. Qed.

Lemma lex_le_lt_trans (a b c : Z * Z * Z) :
  lex_le a b -> lex_lt b c -> lex_lt a c.
Proof. intros [H1 | ->] H2; eauto using lex_lt_trans. Qed.

(** [<=] on numbers is transitive. *)
Lemma leb_trans (x y z : number) :
  leb x y = true -> leb y z = true -> leb x z = true.
Proof.
  rewrite !leb_key.
  intros (a & b & Ha & Hb & H1) (b' & c & Hb' & Hc & H2).
  rewrite Hb in Hb'; injection Hb' as <-.
  exists a, c; eauto using lex_le_trans.
Qed.

Lemma geb_trans (x y z : number) :
  geb x y = true -> geb y z = true -> geb x z = true.
Proof. unfold geb. intros H1 H2. exact (leb_trans z y x H2 H1). Qed.

(** [x < y] and [x >= y] exclude each other. *)
Lemma ltb_not_geb (x y : number) : ltb x y = true -> geb x y = false.
Proof.
  intros H. destruct (geb x y) eqn:G; [exfalso | reflexivity].
  apply ltb_key in H. apply geb_key in G.
  destruct H as (a & b & Ha & Hb & H), G as (a' & b' & Ha' & Hb' & G).
  rewrite Ha in Ha'; injection Ha' as <-.
  rewrite Hb in Hb'; injection Hb' as <-.
  apply (lex_lt_irrefl a). eauto using lex_lt_le_trans.
Qed.

Lemma geb_not_ltb (x y : number) : geb x y = true -> ltb x y = false.
Proof.
  intros G. destruct (ltb x y) eqn:H; [| reflexivity].
  apply ltb_not_geb in H. congruence.
Qed.

(** [x < y <= z] gives [x < z]. *)
Lemma ltb_leb_trans (x y z : number) :
  ltb x y = true -> leb y z = true -> ltb x z = true.
Proof.
  rewrite !ltb_key, leb_key.
  intros (a & b & Ha & Hb & H1) (b' & c & Hb' & Hc & H2).
  rewrite Hb in Hb'; injection Hb' as <-.
  exists a, c; eauto using lex_lt_le_trans.
Qed.

(** Below a bound, below every larger bound; at or above a bound, at or
    above every smaller one. *)
Lemma ltb_weaken (x lo hi : number) :
  leb lo hi = true -> ltb x lo = true -> ltb x hi = true.
Proof. intros Hle Hlt. exact (ltb_leb_trans x lo hi Hlt Hle). Qed.

Lemma geb_weaken (x lo hi : number) :
  leb lo hi = true -> geb x hi = true -> geb x lo = true.
Proof. intros Hle Hge. unfold geb in *. exact (leb_trans lo hi x Hle Hge). Qed.

(** A number that is not NaN is below a bound or at or above it. *)
Lemma ltb_or_geb (x y : number) :
  key x <> None -> key y <> None -> ltb x y = true \/ geb x y = true.
Proof.
  intros Hx Hy. unfold ltb, geb, SFltb, SFleb.
  rewrite (SFcompare_key x y), (SFcompare_key y x).
  destruct (key x) as [kx |]; [| congruence].
  destruct (key y) as [ky |]; [| congruence].
  destruct (lex_compare kx ky) eqn:E.
  - right. apply lex_compare_eq in E. subst.
    now rewrite (proj2 (lex_compare_eq ky ky) eq_refl).
  - left; reflexivity.
  - right. apply lex_compare_gt in E. apply lex_compare_lt in E.
    now rewrite E.
Qed.

End NumberOrder.

(* ================================================================== *)
(** * Threshold policy *)
(* ================================================================== *)

Module ThresholdProofs.

Import Number Apca.

(** C1.  [getMinimumLc] returns the fixed table value for every use case
    other than body-text (large-text 60, ui-component 60, non-text 45,
    placeholder 45, disabled 45) whatever the font size and weight; for
    body-text it returns 60 when [fontSize >= 24] or the weight is bold,
    and 75 otherwise.  The five sample calls of the specification follow. *)
Theorem getMinimumLc_table :
  (forall (useCase : UseCase) (fontSize : number) (fontWeight : FontWeight),
     getMinimumLc useCase fontSize fontWeight =
     match useCase with
     | body_text =>
         if (geb fontSize (of_Z 24) ||
             match fontWeight with bold => true | normal => false end)%bool
         then of_Z 60 else of_Z 75
     | large_text => of_Z 60
     | ui_component => of_Z 60
     | non_text => of_Z 45
     | placeholder => of_Z 45
     | disabled => of_Z 45
     end) /\
  getMinimumLc body_text (of_Z 16) normal = of_Z 75 /\
  getMinimumLc body_text (of_Z 16) bold = of_Z 60 /\
  getMinimumLc body_text (of_Z 24) normal = of_Z 60 /\
  getMinimumLc large_text (of_Z 16) normal = of_Z 60 /\
  getMinimumLc placeholder (of_Z 14) normal = of_Z 45.
Proof.
  split; [| repeat split].
  intros useCase fontSize fontWeight.
  unfold getMinimumLc.
  destruct useCase; cbn [UseCase_eqb negb USE_CASE_THRESHOLDS]; reflexivity.
Qed.

(** C10.  For every use case of the enum, every number given as font size
    (zero, negative, infinite and NaN included) and every font weight,
    [getMinimumLc] returns a number, one of 45, 60 and 75, which is
    strictly positive; a NaN font size is not rejected but counts as small
    text, so body-text gets the threshold of a size below 24. *)
Theorem getMinimumLc_total :
  forall (useCase : UseCase) (fontSize : number) (fontWeight : FontWeight),
    (exists r : number,
        getMinimumLc useCase fontSize fontWeight = r /\
        (r = of_Z 45 \/ r = of_Z 60 \/ r = of_Z 75) /\
        is_number r = true /\
        ltb (of_Z 0) r = true) /\
    getMinimumLc useCase NaN fontWeight =
      getMinimumLc useCase (of_Z 16) fontWeight /\
    getMinimumLc body_text NaN normal = of_Z 75.
Proof.
  intros useCase fontSize fontWeight. split; [| split].
  - eexists; split; [reflexivity |].
    unfold getMinimumLc.
    destruct useCase; cbn [UseCase_eqb negb USE_CASE_THRESHOLDS];
      try (repeat split; auto; fail).
    destruct (geb fontSize (of_Z 24) || FontWeight_eqb fontWeight bold)%bool;
      repeat split; auto.
  - destruct useCase, fontWeight; reflexivity.
  - reflexivity.
Qed.

End ThresholdProofs.

(* ================================================================== *)
(** * Contrast evaluator *)
(* ================================================================== *)

Module EvaluatorProofs.

Import Number Apca NumberOrder.

Section WithExternals.
Context {ext : Externals}.

(** When the primitive returns a score, [checkContrast] returns the result
    whose fields are computed from that score. *)
Lemma checkContrast_returns
    (fg bg : string) (opts : Options) (score : number) :
  calcAPCA fg bg = Some score ->
  checkContrast fg bg opts =
  let useCase := or_default body_text opts.(useCase) in
  let minimumLc :=
    getMinimumLc useCase (or_default (of_Z 16) opts.(fontSize))
                 (or_default normal opts.(fontWeight)) in
  let passes := geb (Math_abs score) minimumLc in
  Some {| lc := round1 score;
          lcAbsolute := round1 (Math_abs score);
          passes := passes;
          minimumLc := minimumLc;
          polarity :=
            if geb score (of_Z 0) then dark_on_light else light_on_dark;
          recommendation :=
            getRecommendation passes (Math_abs score) minimumLc useCase;
          rating := getRating (Math_abs score) |}.
Proof. intros H. unfold checkContrast. rewrite H. reflexivity. Qed.

(** When the primitive throws, so does [checkContrast]. *)
Lemma checkContrast_throws (fg bg : string) (opts : Options) :
  calcAPCA fg bg = None -> checkContrast fg bg opts = None.
Proof. intros H. unfold checkContrast. rewrite H. reflexivity. Qed.

Lemma getRating_AAA (m : number) :
  geb m (of_Z 90) = true -> getRating m = rating_AAA.
Proof. intros H. unfold getRating. now rewrite H. Qed.

Lemma getRating_AA (m : number) :
  geb m (of_Z 75) = true -> ltb m (of_Z 90) = true ->
  getRating m = rating_AA.
Proof.
  intros H75 H90. unfold getRating.
  now rewrite (ltb_not_geb _ _ H90), H75.
Qed.

Lemma getRating_A (m : number) :
  geb m (of_Z 60) = true -> ltb m (of_Z 75) = true ->
  getRating m = rating_A.
Proof.
  intros H60 H75. unfold getRating.
  assert (H90 : ltb m (of_Z 90) = true)
    by (apply (ltb_weaken m (of_Z 75)); [reflexivity | assumption]).
  now rewrite (ltb_not_geb _ _ H90), (ltb_not_geb _ _ H75), H60.
Qed.

Lemma getRating_fail (m : number) :
  ltb m (of_Z 60) = true -> getRating m = rating_fail.
Proof.
  intros H60. unfold getRating.
  assert (H75 : ltb m (of_Z 75) = true)
    by (apply (ltb_weaken m (of_Z 60)); [reflexivity | assumption]).
  assert (H90 : ltb m (of_Z 90) = true)
    by (apply (ltb_weaken m (of_Z 60)); [reflexivity | assumption]).
  now rewrite (ltb_not_geb _ _ H90), (ltb_not_geb _ _ H75),
    (ltb_not_geb _ _ H60).
Qed.

Lemma getRating_monotone (m m' : number) :
  leb m m' = true ->
  (Rating_rank (getRating m) <= Rating_rank (getRating m'))%nat.
Proof.
  intros Hle.
  assert (up : forall c, geb m c = true -> geb m' c = true).
  { intros c Hc. apply (geb_trans m' m c); [exact Hle | exact Hc]. }
  unfold getRating.
  destruct (geb m (of_Z 90)) eqn:E90.
  { rewrite (up _ E90). apply Nat.le_refl. }
  destruct (geb m (of_Z 75)) eqn:E75.
  { rewrite (up _ E75). destruct (geb m' (of_Z 90)); cbn; lia. }
  destruct (geb m (of_Z 60)) eqn:E60.
  { rewrite (up _ E60).
    destruct (geb m' (of_Z 90)), (geb m' (of_Z 75)); cbn; lia. }
  cbn [Rating_rank]. lia.
Qed.

End WithExternals.

(** C4.  The rating is AAA for a magnitude of at least 90, AA from 75 to
    below 90, A from 60 to below 75 and fail below 60; it does not decrease
    when the magnitude grows; and in a result of [checkContrast] it is
    [getRating] of the magnitude of the score, the same for every use case,
    font size and font weight. *)
Theorem rating_tiers (m m' : number) :
  (geb m (of_Z 90) = true -> getRating m = rating_AAA) /\
  (geb m (of_Z 75) = true -> ltb m (of_Z 90) = true ->
   getRating m = rating_AA) /\
  (geb m (of_Z 60) = true -> ltb m (of_Z 75) = true ->
   getRating m = rating_A) /\
  (ltb m (of_Z 60) = true -> getRating m = rating_fail) /\
  (leb m m' = true ->
   (Rating_rank (getRating m) <= Rating_rank (getRating m'))%nat) /\
  (forall (ext : Externals) (fg bg : string) (opts opts' : Options),
     calcAPCA fg bg = Some m ->
     exists r r' : ContrastResult,
       checkContrast fg bg opts = Some r /\
       checkContrast fg bg opts' = Some r' /\
       rating r = getRating (Math_abs m) /\
       rating r' = rating r).
Proof.
  repeat apply conj.
  - apply getRating_AAA.
  - apply getRating_AA.
  - apply getRating_A.
  - apply getRating_fail.
  - apply getRating_monotone.
  - intros ext fg bg opts opts' H.
    rewrite (checkContrast_returns fg bg opts m H).
    rewrite (checkContrast_returns fg bg opts' m H).
    cbv zeta. eexists; eexists. repeat apply conj; reflexivity.
Qed.

(** The tiers at 95, 80, 65 and 30, the order between 65 and 80, and the
    rating of a score of 80 under two use cases. *)
Lemma rating_tiers_witness :
  getRating (of_Z 95) = rating_AAA /\
  getRating (of_Z 80) = rating_AA /\
  getRating (of_Z 65) = rating_A /\
  getRating (of_Z 30) = rating_fail /\
  (Rating_rank (getRating (of_Z 65)) <=
   Rating_rank (getRating (of_Z 80)))%nat /\
  (exists r r' : ContrastResult,
      @checkContrast (Standin.two_colour (of_Z 80))
        "#000000" "#ffffff" no_options = Some r /\
      @checkContrast (Standin.two_colour (of_Z 80))
        "#000000" "#ffffff"
        {| fontSize := None; fontWeight := None;
           useCase := Some disabled |} = Some r' /\
      rating r = getRating (Math_abs (of_Z 80)) /\
      rating r' = rating r).
Proof.
  repeat apply conj.
  - apply (proj1 (rating_tiers (of_Z 95) (of_Z 95))). reflexivity.
  - apply (proj1 (proj2 (rating_tiers (of_Z 80) (of_Z 80)))); reflexivity.
  - apply (proj1 (proj2 (proj2 (rating_tiers (of_Z 65) (of_Z 80)))));
      reflexivity.
  - apply (proj1 (proj2 (proj2 (proj2 (rating_tiers (of_Z 30) (of_Z 30)))))).
    reflexivity.
  - apply (proj1 (proj2 (proj2 (proj2 (proj2
             (rating_tiers (of_Z 65) (of_Z 80))))))).
    reflexivity.
  - apply (proj2 (proj2 (proj2 (proj2 (proj2
             (rating_tiers (of_Z 80) (of_Z 80))))))
             (Standin.two_colour (of_Z 80))).
    reflexivity.
Defined.

(** C7.  The polarity of a result is dark-on-light when the score of the
    primitive is at least zero and light-on-dark when it is below zero; a
    score of exactly zero, of either sign, is dark-on-light. *)
Theorem polarity_by_sign
    (ext : Externals) (fg bg : string) (opts : Options) (score : number) :
  calcAPCA fg bg = Some score ->
  exists r : ContrastResult,
    checkContrast fg bg opts = Some r /\
    (geb score (of_Z 0) = true -> polarity r = dark_on_light) /\
    (ltb score (of_Z 0) = true -> polarity r = light_on_dark) /\
    (forall s : bool, score = S754_zero s -> polarity r = dark_on_light).
Proof.
  intros H. rewrite (checkContrast_returns fg bg opts score H). cbv zeta.
  eexists; split; [reflexivity |]. cbn [polarity].
  repeat apply conj.
  - intros G. now rewrite G.
  - intros L. now rewrite (ltb_not_geb _ _ L).
  - intros s ->. reflexivity.
Qed.

(** The polarity is decided before rounding: a score of -0.04 is returned
    as [lc = -0], with the polarity of the negative score. *)
Example small_negative_score :
  exists r : ContrastResult,
    @checkContrast (Standin.two_colour (Standin.decimal 4 2))
      "#ffffff" "#000000" no_options = Some r /\
    lc r = S754_zero true /\ polarity r = light_on_dark.
Proof. eexists. split; [vm_compute; reflexivity |]. split; reflexivity. Qed.

(** A zero score, for a colour on itself. *)
Lemma polarity_by_sign_witness :
  exists r : ContrastResult,
    @checkContrast (Standin.two_colour (of_Z 80))
      "#ffffff" "#ffffff" no_options = Some r /\
    (geb (of_Z 0) (of_Z 0) = true -> polarity r = dark_on_light) /\
    (ltb (of_Z 0) (of_Z 0) = true -> polarity r = light_on_dark) /\
    (forall s : bool, of_Z 0 = S754_zero s -> polarity r = dark_on_light).
Proof.
  apply (polarity_by_sign (Standin.two_colour (of_Z 80))
           "#ffffff" "#ffffff" no_options (of_Z 0)).
  reflexivity.
Defined.

(** C5.  The recommendation of a result is a string exactly when the pair
    fails its threshold, and null exactly when it passes. *)
Theorem recommendation_iff_fails
    (ext : Externals) (fg bg : string) (opts : Options) (score : number) :
  calcAPCA fg bg = Some score ->
  exists r : ContrastResult,
    checkContrast fg bg opts = Some r /\
    (recommendation r <> None <-> passes r = false) /\
    (recommendation r = None <-> passes r = true).
Proof.
  intros H. rewrite (checkContrast_returns fg bg opts score H). cbv zeta.
  eexists; split; [reflexivity |]. cbn [recommendation passes].
  unfold getRecommendation.
  destruct (geb (Math_abs score) _).
  - split; split; intros; congruence.
  - destruct (ltb (Math_abs score) (of_Z 15));
      [| destruct (ltb (Math_abs score) (of_Z 45))];
      split; split; intros; congruence.
Qed.

(** A failing pair (score 30 against 75) and a passing one (score 80). *)
Lemma recommendation_iff_fails_witness :
  (exists r : ContrastResult,
      @checkContrast (Standin.two_colour (of_Z 30))
        "#000000" "#ffffff" no_options = Some r /\
      passes r = false /\ recommendation r <> None) /\
  (exists r : ContrastResult,
      @checkContrast (Standin.two_colour (of_Z 80))
        "#000000" "#ffffff" no_options = Some r /\
      passes r = true /\ recommendation r = None).
Proof.
  split.
  - destruct (recommendation_iff_fails (Standin.two_colour (of_Z 30))
                "#000000" "#ffffff" no_options (of_Z 30) eq_refl)
      as (r & Hr & Hfail & _).
    exists r. split; [exact Hr |].
    assert (P : passes r = false)
      by (vm_compute in Hr; injection Hr as <-; reflexivity).
    split; [exact P | exact (proj2 Hfail P)].
  - destruct (recommendation_iff_fails (Standin.two_colour (of_Z 80))
                "#000000" "#ffffff" no_options (of_Z 80) eq_refl)
      as (r & Hr & _ & Hpass).
    exists r. split; [exact Hr |].
    assert (P : passes r = true)
      by (vm_compute in Hr; injection Hr as <-; reflexivity).
    split; [exact P | exact (proj2 Hpass P)].
Defined.

(** C6.  For a failing pair the message is chosen by the band of the
    unrounded magnitude [m] and says what the claim lists.  The use case it
    names is the one of the options, body-text when the options give none,
    and the minimum it quotes is the threshold of that use case at the font
    size and weight of the options (16 and normal when absent).  Below 15:
    the too-low text with [m] to one decimal, that minimum and the use
    case.  From 15 to below 45: the decorative-only text with the deficit
    [minimumLc - m] rounded to an integer, and the use case.  From 45 on:
    the generic text with the rounded deficit. *)
Theorem recommendation_by_band
    (ext : Externals) (fg bg : string) (opts : Options) (score : number) :
  calcAPCA fg bg = Some score ->
  exists r : ContrastResult,
    checkContrast fg bg opts = Some r /\
    let m := Math_abs score in
    let u :=
      match opts.(useCase) with
      | None | Some body_text => "body-text"
      | Some large_text => "large-text"
      | Some ui_component => "ui-component"
      | Some non_text => "non-text"
      | Some placeholder => "placeholder"
      | Some disabled => "disabled"
      end%string in
    let deficit := toFixed Number_toString (sub (minimumLc r) m) 0 in
    minimumLc r =
      getMinimumLc
        match opts.(useCase) with Some v => v | None => body_text end
        match opts.(fontSize) with Some v => v | None => of_Z 16 end
        match opts.(fontWeight) with Some v => v | None => normal end /\
    (passes r = false ->
     (ltb m (of_Z 15) = true ->
      recommendation r =
      Some ("Contrast is too low for any text use. Current Lc: " ++
            toFixed Number_toString m 1 ++ ", need at least " ++
            Number_toString (minimumLc r) ++ " for " ++ u ++ ".")%string) /\
     (geb m (of_Z 15) = true -> ltb m (of_Z 45) = true ->
      recommendation r =
      Some ("Only suitable for decorative or non-essential elements. Increase contrast by ~"
            ++ deficit ++ " Lc points for " ++ u ++ ".")%string) /\
     (geb m (of_Z 45) = true ->
      recommendation r =
      Some ("Increase contrast by ~" ++ deficit ++
            " Lc points. Try darkening the text or lightening the background (or vice versa for dark mode).")%string)).
Proof.
  intros H. rewrite (checkContrast_returns fg bg opts score H). cbv zeta.
  eexists; split; [reflexivity |].
  cbn [recommendation passes minimumLc].
  split; [reflexivity |].
  intros Hfail. rewrite Hfail.
  unfold getRecommendation, too_low_message, decorative_message,
    increase_message.
  assert (U : UseCase_text (or_default body_text opts.(useCase)) =
              match opts.(useCase) with
              | None | Some body_text => "body-text"
              | Some large_text => "large-text"
              | Some ui_component => "ui-component"
              | Some non_text => "non-text"
              | Some placeholder => "placeholder"
              | Some disabled => "disabled"
              end%string)
    by (destruct (useCase opts) as [[] |]; reflexivity).
  rewrite U. repeat apply conj.
  - intros L15. now rewrite L15.
  - intros G15 L45. now rewrite (geb_not_ltb _ _ G15), L45.
  - intros G45.
    assert (G15 : geb (Math_abs score) (of_Z 15) = true)
      by (apply (geb_weaken _ (of_Z 15) (of_Z 45)); [reflexivity | exact G45]).
    now rewrite (geb_not_ltb _ _ G15), (geb_not_ltb _ _ G45).
Qed.

(** The three bands: scores of 10.04 and 70.5 under the default body-text
    threshold of 75, and a score of 30.5 for a placeholder, whose threshold
    is 45, with their messages. *)
Lemma recommendation_by_band_witness :
  (exists r : ContrastResult,
      @checkContrast (Standin.two_colour (Standin.decimal 1004 2))
        "#000000" "#ffffff" no_options = Some r /\
      minimumLc r = of_Z 75 /\
      recommendation r =
      Some "Contrast is too low for any text use. Current Lc: 10.0, need at least 75 for body-text."%string) /\
  (exists r : ContrastResult,
      @checkContrast (Standin.two_colour (Standin.decimal 305 1))
        "#000000" "#ffffff"
        {| fontSize := None; fontWeight := None;
           useCase := Some placeholder |} = Some r /\
      minimumLc r = of_Z 45 /\
      recommendation r =
      Some "Only suitable for decorative or non-essential elements. Increase contrast by ~15 Lc points for placeholder."%string) /\
  (exists r : ContrastResult,
      @checkContrast (Standin.two_colour (Standin.decimal 705 1))
        "#000000" "#ffffff" no_options = Some r /\
      minimumLc r = of_Z 75 /\
      recommendation r =
      Some "Increase contrast by ~5 Lc points. Try darkening the text or lightening the background (or vice versa for dark mode)."%string).
Proof.
  repeat apply conj.
  - destruct (recommendation_by_band
                (Standin.two_colour (Standin.decimal 1004 2))
                "#000000" "#ffffff" no_options _ eq_refl)
      as (r & Hr & Hmin & Hband).
    exists r. split; [exact Hr |]. split; [exact Hmin |].
    assert (E : Some r = Some r) by reflexivity.
    rewrite <- Hr in E at 1. vm_compute in E. injection E as <-.
    exact (proj1 (Hband eq_refl) eq_refl).
  - destruct (recommendation_by_band
                (Standin.two_colour (Standin.decimal 305 1))
                "#000000" "#ffffff"
                {| fontSize := None; fontWeight := None;
                   useCase := Some placeholder |} _ eq_refl)
      as (r & Hr & Hmin & Hband).
    exists r. split; [exact Hr |]. split; [exact Hmin |].
    assert (E : Some r = Some r) by reflexivity.
    rewrite <- Hr in E at 1. vm_compute in E. injection E as <-.
    exact (proj1 (proj2 (Hband eq_refl)) eq_refl eq_refl).
  - destruct (recommendation_by_band
                (Standin.two_colour (Standin.decimal 705 1))
                "#000000" "#ffffff" no_options _ eq_refl)
      as (r & Hr & Hmin & Hband).
    exists r. split; [exact Hr |]. split; [exact Hmin |].
    assert (E : Some r = Some r) by reflexivity.
    rewrite <- Hr in E at 1. vm_compute in E. injection E as <-.
    exact (proj2 (proj2 (Hband eq_refl)) eq_refl).
Defined.

(** C2, as stated, fails: for a score of 74.96 under the default
    threshold of 75 the pair does not pass, yet the returned [lcAbsolute]
    is 75.0, which is at least the returned [minimumLc]. *)
Lemma passes_rounded_magnitude_counterexample :
  exists r : ContrastResult,
    @checkContrast (Standin.two_colour (Standin.decimal 7496 2))
      "#000000" "#ffffff" no_options = Some r /\
    lcAbsolute r = of_Z 75 /\
    minimumLc r = of_Z 75 /\
    passes r = false /\
    geb (lcAbsolute r) (minimumLc r) = true /\
    passes r <> geb (lcAbsolute r) (minimumLc r).
Proof.
  eexists. split; [vm_compute; reflexivity |].
  repeat apply conj; try (vm_compute; reflexivity).
  vm_compute. discriminate.
Qed.

(** C2, amended.  [passes] is the comparison of the unrounded magnitude,
    the absolute value of the score of the primitive, with the returned
    [minimumLc]; the returned [lcAbsolute] is that magnitude rounded to one
    decimal, after the decision. *)
Theorem passes_unrounded_magnitude
    (ext : Externals) (fg bg : string) (opts : Options) (score : number) :
  calcAPCA fg bg = Some score ->
  exists r : ContrastResult,
    checkContrast fg bg opts = Some r /\
    passes r = geb (Math_abs score) (minimumLc r) /\
    lcAbsolute r = round1 (Math_abs score) /\
    minimumLc r =
      getMinimumLc (or_default body_text opts.(useCase))
                   (or_default (of_Z 16) opts.(fontSize))
                   (or_default normal opts.(fontWeight)).
Proof.
  intros H. rewrite (checkContrast_returns fg bg opts score H). cbv zeta.
  eexists; split; [reflexivity |]. repeat apply conj; reflexivity.
Qed.

(** The score 74.96 again: decided on 74.96, returned as 75.0. *)
Lemma passes_unrounded_magnitude_witness :
  exists r : ContrastResult,
    @checkContrast (Standin.two_colour (Standin.decimal 7496 2))
      "#000000" "#ffffff" no_options = Some r /\
    passes r = geb (Math_abs (Standin.decimal 7496 2)) (minimumLc r) /\
    lcAbsolute r = round1 (Math_abs (Standin.decimal 7496 2)) /\
    minimumLc r = getMinimumLc body_text (of_Z 16) normal.
Proof.
  apply (passes_unrounded_magnitude
           (Standin.two_colour (Standin.decimal 7496 2))
           "#000000" "#ffffff" no_options (Standin.decimal 7496 2)).
  reflexivity.
Defined.

(** C3 at a score of -12.25 (white on black): [lc * 10] is -122.5, which
    [Math.round] takes to -122, while [lcAbsolute * 10] is 122.5, which it
    takes to 123.  The result has [lc = -12.2] and [lcAbsolute = 12.3]. *)
Theorem lcAbsolute_differs_from_abs_lc :
  exists r : ContrastResult,
    @checkContrast (Standin.two_colour (Standin.decimal 1225 2))
      "#ffffff" "#000000" no_options = Some r /\
    lc r = Standin.decimal (-122) 1 /\
    lcAbsolute r = Standin.decimal 123 1 /\
    Math_abs (lc r) = Standin.decimal 122 1 /\
    lcAbsolute r <> Math_abs (lc r).
Proof.
  eexists. split; [vm_compute; reflexivity |].
  repeat apply conj; try (vm_compute; reflexivity).
  vm_compute. discriminate.
Qed.

Lemma Math_abs_neg (x : number) : Math_abs (neg x) = Math_abs x.
Proof. destruct x; reflexivity. Qed.






(** Rounding to a float keeps the sign it is given. *)
Lemma binary_round_aux_sign (s : bool) (m e : Z) (l : location) :
  match binary_round_aux prec emax s m e l with
  | S754_nan => True
  | S754_zero s' | S754_infinity s' | S754_finite s' _ _ => s' = s
  end.
Proof.
  unfold binary_round_aux.
  destruct (shr_fexp prec emax m e l) as [mrs' e'].
  destruct (shr_fexp prec emax _ e' loc_Exact) as [mrs'' e''].
  destruct (shr_m mrs''); [reflexivity | | exact I].
  destruct (e'' <=? emax - prec); reflexivity.
Qed.

Lemma mul_10_sign_clear (x : number) :
  sign_clear x -> sign_clear (mul x (of_Z 10)).
Proof.
  change (of_Z 10) with (S754_finite false 5629499534213120 (-49)).
  destruct x as [s | s | | s m e]; cbn [sign_clear]; intros H; subst;
    try exact I; try reflexivity.
  exact (binary_round_aux_sign false _ _ loc_Exact).
Qed.

Lemma div_10_sign_clear (x : number) :
  sign_clear x -> sign_clear (div x (of_Z 10)).
Proof.
  change (of_Z 10) with (S754_finite false 5629499534213120 (-49)).
  destruct x as [s | s | | s m e]; cbn [sign_clear]; intros H; subst;
    try exact I; try reflexivity.
  unfold div, SFdiv. cbn [xorb].
  destruct (SFdiv_core_binary prec emax (Zpos m) e _ _) as [[mz ez] lz].
  exact (binary_round_aux_sign false mz ez lz).
Qed.

Lemma of_Z_sign_clear (n : Z) : 0 <= n -> sign_clear (of_Z n).
Proof.
  intros Hn. unfold of_Z, binary_normalize.
  destruct n as [| p | p]; [reflexivity | | lia].
  unfold binary_round.
  destruct (shl_align p 0 _) as [mz ez].
  exact (binary_round_aux_sign false _ _ loc_Exact).
Qed.

Lemma Math_round_sign_clear (x : number) :
  sign_clear x -> sign_clear (Math_round x).
Proof.
  destruct x as [s | s | | s m e]; cbn [Math_round sign_clear]; try easy.
  intros ->. destruct (0 <=? e) eqn:He; [reflexivity |].
  cbn [cond_Zopp].
  destruct (round_half_up (Zpos m) (- e) =? 0); [reflexivity |].
  apply of_Z_sign_clear. unfold round_half_up.
  apply Z.leb_gt in He.
  apply Z.div_pos; [| apply Z.pow_pos_nonneg; lia].
  assert (0 < 2 ^ (- e)) by (apply Z.pow_pos_nonneg; lia). lia.
Qed.

Lemma Math_abs_sign_clear (x : number) : sign_clear x -> Math_abs x = x.
Proof. destruct x as [s | s | | s m e]; cbn; congruence. Qed.

Lemma round1_sign_clear (x : number) : sign_clear x -> sign_clear (round1 x).
Proof.
  intros H. unfold round1.
  apply div_10_sign_clear, Math_round_sign_clear, mul_10_sign_clear, H.
Qed.

(** For a score whose sign bit is clear (a dark-on-light pair, a positive
    zero, or NaN) the two rounded fields agree: the returned [lcAbsolute]
    is the absolute value of the returned [lc]. *)
Lemma lcAbsolute_is_abs_lc_when_sign_clear
    (ext : Externals) (fg bg : string) (opts : Options) (score : number) :
  calcAPCA fg bg = Some score ->
  sign_clear score ->
  exists r : ContrastResult,
    checkContrast fg bg opts = Some r /\
    lcAbsolute r = Math_abs (lc r).
Proof.
  intros H Hs. rewrite (checkContrast_returns fg bg opts score H). cbv zeta.
  eexists; split; [reflexivity |]. cbn [lcAbsolute lc].
  rewrite (Math_abs_sign_clear score Hs).
  symmetry. apply Math_abs_sign_clear, round1_sign_clear, Hs.
Qed.

End EvaluatorProofs.

(* ================================================================== *)
(** * The [check_contrast] tool *)
(* ================================================================== *)

Module ServerProofs.

Import Number Server.

(** The text of a content item list of one element. *)
Lemma handler_text {ext : Externals} (args : json) :
  content (check_contrast_handler args) =
  [ {| type := "text";
       text := JSON_stringify_2 (check_contrast_payload args) |} ].
Proof. reflexivity. Qed.

(** The serialized placeholder opens with the [status] property, whatever
    the arguments are. *)
Lemma placeholder_prefix {ext : Externals} (args : json) :
  substring 0 32 (JSON_stringify_2 (check_contrast_payload args)) =
  ("{" ++ newline ++ "  " ++ dquote ++ "status" ++ dquote ++ ": " ++
   dquote ++ "not_implemented" ++ dquote ++ ",")%string.
Proof. vm_compute. reflexivity. Qed.

(** C9 on the code: for every call, the tool answers with one text item,
    the indented JSON of an object with the properties [status] (the string
    [not_implemented]), [message] and [input] (the parsed arguments); the
    contrast primitive is never called, and the text is not the JSON of a
    [ContrastResult], indented or compact. *)
Theorem check_contrast_tool_answers_placeholder
    (ext : Externals) (i : CheckContrastInput) :
  check_contrast_tool i =
  {| content :=
       [ {| type := "text";
            text :=
              JSON_stringify_2
                (JObject
                   [ ("status", JString "not_implemented");
                     ("message",
                      JString
                        "APCA contrast checking will be implemented in issue #2");
                     ("input", parse_input i) ]%string) |} ] |} /\
  (forall calc : string -> string -> option number,
     @check_contrast_tool
       {| calcAPCA := calc; Number_toString := Number_toString |} i =
     check_contrast_tool i) /\
  (forall (t : ContentItem) (r : Apca.ContrastResult),
     In t (content (check_contrast_tool i)) ->
     text t <> JSON_stringify_2 (spec_ContrastResult_json r) /\
     text t <> JSON_stringify (spec_ContrastResult_json r)).
Proof.
  repeat apply conj.
  - reflexivity.
  - intros calc. reflexivity.
  - intros t r [<- | []]. cbn [text]. split; intros E.
    + apply (f_equal (String.get 5)) in E. vm_compute in E. discriminate E.
    + apply (f_equal (String.get 1)) in E. vm_compute in E. discriminate E.
Qed.

(** Black on white with the defaults: the answer of the tool, line by
    line, next to what the evaluator returns for the same pair. *)
Lemma check_contrast_tool_answers_placeholder_witness :
  let ext := Standin.two_colour (of_Z 106) in
  let i := {| foreground := "#000000"; background := "#ffffff";
              fontSize := None; fontWeight := None; useCase := None |} in
  let q := fun s : string => (dquote ++ s ++ dquote)%string in
  (forall t : ContentItem,
      In t (content (check_contrast_tool i)) ->
      text t =
      String.concat newline
        [ "{";
          "  " ++ q "status" ++ ": " ++ q "not_implemented" ++ ",";
          "  " ++ q "message" ++ ": " ++
            q "APCA contrast checking will be implemented in issue #2" ++ ",";
          "  " ++ q "input" ++ ": {";
          "    " ++ q "foreground" ++ ": " ++ q "#000000" ++ ",";
          "    " ++ q "background" ++ ": " ++ q "#ffffff" ++ ",";
          "    " ++ q "fontSize" ++ ": 16,";
          "    " ++ q "fontWeight" ++ ": " ++ q "normal" ++ ",";
          "    " ++ q "useCase" ++ ": " ++ q "body-text";
          "  }";
          "}" ]%string) /\
  (exists r : Apca.ContrastResult,
      Apca.checkContrast "#000000" "#ffffff" Apca.no_options = Some r /\
      JSON_stringify (spec_ContrastResult_json r) =
      ("{" ++ q "lc" ++ ":106," ++ q "lcAbsolute" ++ ":106," ++
       q "passes" ++ ":true," ++ q "minimumLc" ++ ":75," ++
       q "polarity" ++ ":" ++ q "dark-on-light" ++ "," ++
       q "recommendation" ++ ":null," ++
       q "rating" ++ ":" ++ q "AAA" ++ "}")%string /\
      forall t : ContentItem,
        In t (content (check_contrast_tool i)) ->
        text t <> JSON_stringify (spec_ContrastResult_json r)).
Proof.
  intros ext i q. split.
  - intros t [<- | []]. vm_compute. reflexivity.
  - eexists. split; [vm_compute; reflexivity |].
    split; [vm_compute; reflexivity |].
    intros t Ht.
    exact (proj2 (proj2 (proj2
             (check_contrast_tool_answers_placeholder ext i)) t _ Ht)).
Defined.

End ServerProofs.

(* ================================================================== *)
(** * The number model on known values *)
(* ================================================================== *)

Module NumberExamples.

Import Number.

Example literal_24 : of_Z 24 = S754_finite false 6755399441055744 (-48).
Proof. reflexivity. Qed.

Example literals_are_numbers :
  forallb is_number [of_Z 0; of_Z 15; of_Z 24; of_Z 45; of_Z 60; of_Z 75;
                     of_Z 90; Standin.decimal 7496 2] = true.
Proof. reflexivity. Qed.

(** [Math.round(-0.5)] is [-0] and [Math.round(0.5)] is [1]. *)
Example round_minus_half :
  Math_round (Standin.decimal (-5) 1) = S754_zero true.
Proof. reflexivity. Qed.

Example round_plus_half : Math_round (Standin.decimal 5 1) = of_Z 1.
Proof. reflexivity. Qed.

(** [Math.round(-122.5)] is [-122] and [Math.round(122.5)] is [123]. *)
Example round_minus_tie : Math_round (Standin.decimal (-1225) 1) = of_Z (-122).
Proof. vm_compute. reflexivity. Qed.

Example round_plus_tie : Math_round (Standin.decimal 1225 1) = of_Z 123.
Proof. vm_compute. reflexivity. Qed.

(** [12.25 * 10] is exactly [122.5]. *)
Example product_is_tie :
  mul (Standin.decimal 1225 2) (of_Z 10) = Standin.decimal 1225 1.
Proof. vm_compute. reflexivity. Qed.

(** [(74.96).toFixed(1)], [(-0.01).toFixed(1)], [(2.5).toFixed(0)] and
    [(1.005).toFixed(2)]. *)
Example toFixed_7496 :
  toFixed toString_integral (Standin.decimal 7496 2) 1 = "75.0"%string.
Proof. vm_compute. reflexivity. Qed.

Example toFixed_minus_001 :
  toFixed toString_integral (Standin.decimal (-1) 2) 1 = "-0.0"%string.
Proof. vm_compute. reflexivity. Qed.

Example toFixed_25 :
  toFixed toString_integral (Standin.decimal 25 1) 0 = "3"%string.
Proof. vm_compute. reflexivity. Qed.

Example toFixed_1005 :
  toFixed toString_integral (Standin.decimal 1005 3) 2 = "1.00"%string.
Proof. vm_compute. reflexivity. Qed.

(** NaN compares false with everything. *)
Example NaN_comparisons :
  geb NaN (of_Z 24) = false /\ ltb NaN (of_Z 24) = false /\
  geb (of_Z 24) NaN = false.
Proof. repeat split. Qed.

End NumberExamples.

(* ================================================================== *)
(** * Further properties of the threshold policy *)
(* ================================================================== *)

Module PolicyProperties.

Import Number Apca NumberOrder.

Lemma getMinimumLc_values
    (useCase : UseCase) (fontSize : number) (fontWeight : FontWeight) :
  getMinimumLc useCase fontSize fontWeight = of_Z 45 \/
  getMinimumLc useCase fontSize fontWeight = of_Z 60 \/
  getMinimumLc useCase fontSize fontWeight = of_Z 75.
Proof.
  unfold getMinimumLc.
  destruct useCase; cbn [UseCase_eqb negb USE_CASE_THRESHOLDS]; auto.
  destruct (geb fontSize (of_Z 24) || FontWeight_eqb fontWeight bold)%bool;
    auto.
Qed.

Lemma getMinimumLc_at_most_75
    (useCase : UseCase) (fontSize : number) (fontWeight : FontWeight) :
  leb (getMinimumLc useCase fontSize fontWeight) (of_Z 75) = true.
Proof.
  destruct (getMinimumLc_values useCase fontSize fontWeight)
    as [-> | [-> | ->]]; reflexivity.
Qed.

Lemma getMinimumLc_at_least_45
    (useCase : UseCase) (fontSize : number) (fontWeight : FontWeight) :
  leb (of_Z 45) (getMinimumLc useCase fontSize fontWeight) = true.
Proof.
  destruct (getMinimumLc_values useCase fontSize fontWeight)
    as [-> | [-> | ->]]; reflexivity.
Qed.

(** X1.  A larger font never asks for more contrast, and neither does a
    bold one: when [fontSize <= fontSize'] the threshold at [fontSize'] is
    at most the threshold at [fontSize], for every use case and weight,
    and the threshold for bold is at most the threshold for normal. *)
Theorem threshold_antitone
    (useCase : UseCase) (fontSize fontSize' : number)
    (fontWeight : FontWeight) :
  leb fontSize fontSize' = true ->
  leb (getMinimumLc useCase fontSize' fontWeight)
      (getMinimumLc useCase fontSize fontWeight) = true /\
  leb (getMinimumLc useCase fontSize bold)
      (getMinimumLc useCase fontSize normal) = true /\
  leb (getMinimumLc useCase fontSize' bold)
      (getMinimumLc useCase fontSize normal) = true.
Proof.
  intros Hle.
  assert (up : geb fontSize (of_Z 24) = true ->
               geb fontSize' (of_Z 24) = true).
  { intros H. apply (geb_trans fontSize' fontSize (of_Z 24)); assumption. }
  unfold getMinimumLc.
  destruct useCase; cbn [UseCase_eqb negb USE_CASE_THRESHOLDS];
    try (repeat apply conj; reflexivity).
  destruct (geb fontSize (of_Z 24)) eqn:E.
  - rewrite (up eq_refl). destruct fontWeight; repeat apply conj; reflexivity.
  - destruct (geb fontSize' (of_Z 24)), fontWeight;
      repeat apply conj; reflexivity.
Qed.

(** Sizes 16 and 32 for body-text. *)
Lemma threshold_antitone_witness :
  leb (getMinimumLc body_text (of_Z 32) normal)
      (getMinimumLc body_text (of_Z 16) normal) = true /\
  leb (getMinimumLc body_text (of_Z 16) bold)
      (getMinimumLc body_text (of_Z 16) normal) = true /\
  leb (getMinimumLc body_text (of_Z 32) bold)
      (getMinimumLc body_text (of_Z 16) normal) = true.
Proof.
  apply (threshold_antitone body_text (of_Z 16) (of_Z 32) normal).
  reflexivity.
Defined.

(** X2.  The threshold is never above the entry of the use case in
    [USE_CASE_THRESHOLDS]; it is that entry except for body-text that is
    large or bold, which gets the entry of large-text.  So the body-text
    entry of the table, which [getMinimumLc] does not read, agrees with
    the value it returns for small normal body text. *)
Theorem threshold_against_table
    (useCase : UseCase) (fontSize : number) (fontWeight : FontWeight) :
  leb (getMinimumLc useCase fontSize fontWeight)
      (USE_CASE_THRESHOLDS useCase) = true /\
  (getMinimumLc useCase fontSize fontWeight = USE_CASE_THRESHOLDS useCase \/
   (useCase = body_text /\
    (geb fontSize (of_Z 24) = true \/ fontWeight = bold) /\
    getMinimumLc useCase fontSize fontWeight =
      USE_CASE_THRESHOLDS large_text)) /\
  (useCase = body_text -> geb fontSize (of_Z 24) = false ->
   fontWeight = normal ->
   getMinimumLc useCase fontSize fontWeight = USE_CASE_THRESHOLDS body_text).
Proof.
  unfold getMinimumLc.
  destruct useCase; cbn [UseCase_eqb negb USE_CASE_THRESHOLDS];
    try (repeat apply conj; [reflexivity | left; reflexivity | discriminate]).
  destruct (geb fontSize (of_Z 24)) eqn:E, fontWeight; cbn [orb FontWeight_eqb];
    repeat apply conj;
    try reflexivity; try discriminate; auto;
    right; repeat apply conj; auto.
Qed.

(** Small normal body text. *)
Lemma threshold_against_table_witness :
  getMinimumLc body_text (of_Z 12) normal = USE_CASE_THRESHOLDS body_text.
Proof.
  apply (proj2 (proj2 (threshold_against_table body_text (of_Z 12) normal)));
    reflexivity.
Defined.

End PolicyProperties.

(* ================================================================== *)
(** * Further properties of the evaluator *)
(* ================================================================== *)

Module EvaluatorProperties.

Import Number Apca NumberOrder NumberSign PolicyProperties EvaluatorProofs.

(** The threshold a call uses. *)
Lemma minimumLc_of_options
    {ext : Externals} (fg bg : string) (opts : Options) (score : number)
    (r : ContrastResult) :
  calcAPCA fg bg = Some score ->
  checkContrast fg bg opts = Some r ->
  minimumLc r =
    getMinimumLc (or_default body_text opts.(useCase))
                 (or_default (of_Z 16) opts.(fontSize))
                 (or_default normal opts.(fontWeight)) /\
  passes r = geb (Math_abs score) (minimumLc r) /\
  rating r = getRating (Math_abs score) /\
  lc r = round1 score /\
  lcAbsolute r = round1 (Math_abs score) /\
  polarity r = (if geb score (of_Z 0) then dark_on_light else light_on_dark) /\
  recommendation r =
    getRecommendation (passes r) (Math_abs score) (minimumLc r)
                      (or_default body_text opts.(useCase)).
Proof.
  intros H Hr. rewrite (checkContrast_returns fg bg opts score H) in Hr.
  cbv zeta in Hr. injection Hr as <-. repeat apply conj; reflexivity.
Qed.

(** X4.  Under one context, more contrast is never worse: when the
    magnitude of a second pair is at least that of a first pair, the second
    passes whenever the first does, and is rated at least as high. *)
Theorem more_contrast_never_worse
    (ext : Externals) (fg bg fg' bg' : string) (opts : Options)
    (score score' : number) :
  calcAPCA fg bg = Some score ->
  calcAPCA fg' bg' = Some score' ->
  leb (Math_abs score) (Math_abs score') = true ->
  exists r r' : ContrastResult,
    checkContrast fg bg opts = Some r /\
    checkContrast fg' bg' opts = Some r' /\
    minimumLc r' = minimumLc r /\
    (passes r = true -> passes r' = true) /\
    (Rating_rank (rating r) <= Rating_rank (rating r'))%nat.
Proof.
  intros H H' Hle.
  rewrite (checkContrast_returns fg bg opts score H).
  rewrite (checkContrast_returns fg' bg' opts score' H'). cbv zeta.
  eexists; eexists. split; [reflexivity |]. split; [reflexivity |].
  cbn [minimumLc passes rating]. repeat apply conj.
  - reflexivity.
  - intros P. apply (geb_trans _ (Math_abs score) _); assumption.
  - apply getRating_monotone, Hle.
Qed.

(** Black on white scoring 76 and white on black scoring -76: equal
    magnitudes, so the second passes as the first does. *)
Lemma more_contrast_never_worse_witness :
  exists r r' : ContrastResult,
    @checkContrast (Standin.two_colour (of_Z 76))
      "#000000" "#ffffff" no_options = Some r /\
    @checkContrast (Standin.two_colour (of_Z 76))
      "#ffffff" "#000000" no_options = Some r' /\
    passes r' = true /\
    (Rating_rank (rating r) <= Rating_rank (rating r'))%nat.
Proof.
  destruct (more_contrast_never_worse (Standin.two_colour (of_Z 76))
              "#000000" "#ffffff" "#ffffff" "#000000" no_options
              (of_Z 76) (neg (of_Z 76)) eq_refl eq_refl eq_refl)
    as (r & r' & Hr & Hr' & _ & Hp & Hrank).
  exists r, r'. split; [exact Hr |]. split; [exact Hr' |].
  split; [| exact Hrank]. apply Hp.
  assert (X : Some r = Some r) by reflexivity.
  rewrite <- Hr in X at 1. vm_compute in X. injection X as <-. reflexivity.
Defined.

(** X5.  Larger or bolder text keeps a pass: with the colours and the use
    case fixed, a pair that passes at one font size passes at every larger
    one, and a pair that passes at normal weight passes at bold. *)
Theorem larger_text_keeps_pass
    (ext : Externals) (fg bg : string) (score : number)
    (u : option UseCase) (w : option FontWeight) (size size' : number) :
  calcAPCA fg bg = Some score ->
  leb size size' = true ->
  exists r r' rb : ContrastResult,
    checkContrast fg bg
      {| fontSize := Some size; fontWeight := w; useCase := u |} = Some r /\
    checkContrast fg bg
      {| fontSize := Some size'; fontWeight := w; useCase := u |} = Some r' /\
    checkContrast fg bg
      {| fontSize := Some size; fontWeight := Some bold; useCase := u |}
      = Some rb /\
    leb (minimumLc r') (minimumLc r) = true /\
    leb (minimumLc rb) (minimumLc r) = true /\
    (passes r = true -> passes r' = true /\ passes rb = true).
Proof.
  intros H Hle.
  rewrite !(checkContrast_returns fg bg _ score H). cbv zeta.
  do 3 eexists. do 3 (split; [reflexivity |]).
  cbn [minimumLc passes fontSize fontWeight useCase or_default].
  destruct (threshold_antitone (or_default body_text u) size size'
              (or_default normal w) Hle) as (A1 & _ & _).
  assert (A2 : leb (getMinimumLc (or_default body_text u) size bold)
                   (getMinimumLc (or_default body_text u) size
                      (or_default normal w)) = true).
  { destruct w as [[|] |]; cbn [or_default].
    - apply (threshold_antitone _ size size' normal Hle).
    - destruct (getMinimumLc_values (or_default body_text u) size bold)
        as [-> | [-> | ->]]; reflexivity.
    - apply (threshold_antitone _ size size' normal Hle). }
  split; [exact A1 |]. split; [exact A2 |].
  intros P. split; eapply geb_weaken; eauto.
Qed.

(** Body text scoring 70: fails at 16px, passes at 24px and at bold. *)
Lemma larger_text_keeps_pass_witness :
  exists r r' rb : ContrastResult,
    @checkContrast (Standin.two_colour (of_Z 70)) "#000000" "#ffffff"
      {| fontSize := Some (of_Z 24); fontWeight := None; useCase := None |}
      = Some r /\
    @checkContrast (Standin.two_colour (of_Z 70)) "#000000" "#ffffff"
      {| fontSize := Some (of_Z 32); fontWeight := None; useCase := None |}
      = Some r' /\
    @checkContrast (Standin.two_colour (of_Z 70)) "#000000" "#ffffff"
      {| fontSize := Some (of_Z 24); fontWeight := Some bold;
         useCase := None |} = Some rb /\
    passes r' = true /\ passes rb = true.
Proof.
  destruct (larger_text_keeps_pass (Standin.two_colour (of_Z 70))
              "#000000" "#ffffff" (of_Z 70) None None (of_Z 24) (of_Z 32)
              eq_refl eq_refl)
    as (r & r' & rb & Hr & Hr' & Hrb & _ & _ & Hp).
  exists r, r', rb. do 3 (split; [assumption |]).
  apply Hp.
  assert (X : Some r = Some r) by reflexivity.
  rewrite <- Hr in X at 1. vm_compute in X. injection X as <-. reflexivity.
Defined.

Lemma getRating_at_least_AA (m : number) :
  (2 <= Rating_rank (getRating m))%nat -> geb m (of_Z 75) = true.
Proof.
  unfold getRating.
  destruct (geb m (of_Z 90)) eqn:E90.
  { intros _. apply (geb_weaken m (of_Z 75) (of_Z 90)); [reflexivity | exact E90]. }
  destruct (geb m (of_Z 75)); [reflexivity |].
  destruct (geb m (of_Z 60)); cbn; lia.
Qed.

Lemma getRating_at_least_A (m : number) :
  geb m (of_Z 60) = true -> (1 <= Rating_rank (getRating m))%nat.
Proof.
  intros H. unfold getRating.
  destruct (geb m (of_Z 90)); [cbn; lia |].
  destruct (geb m (of_Z 75)); [cbn; lia |].
  rewrite H. cbn; lia.
Qed.

(** X6.  A rating of AA or AAA implies a pass under every context: no use
    case, size or weight asks for more than 75. *)
Theorem rated_AA_passes
    (ext : Externals) (fg bg : string) (opts : Options) (score : number) :
  calcAPCA fg bg = Some score ->
  exists r : ContrastResult,
    checkContrast fg bg opts = Some r /\
    (rating r = rating_AA \/ rating r = rating_AAA ->
     passes r = true /\ recommendation r = None).
Proof.
  intros H. rewrite (checkContrast_returns fg bg opts score H). cbv zeta.
  eexists; split; [reflexivity |]. cbn [rating passes recommendation].
  intros R.
  assert (G : geb (Math_abs score) (of_Z 75) = true).
  { apply getRating_at_least_AA. destruct R as [-> | ->]; cbn; lia. }
  assert (P : geb (Math_abs score)
                (getMinimumLc (or_default body_text (useCase opts))
                   (or_default (of_Z 16) (fontSize opts))
                   (or_default normal (fontWeight opts))) = true).
  { eapply geb_weaken; [apply getMinimumLc_at_most_75 | exact G]. }
  rewrite P. split; reflexivity.
Qed.

(** A score of 76 is rated AA and passes as small normal body text. *)
Lemma rated_AA_passes_witness :
  exists r : ContrastResult,
    @checkContrast (Standin.two_colour (of_Z 76))
      "#000000" "#ffffff" no_options = Some r /\
    passes r = true /\ recommendation r = None.
Proof.
  destruct (rated_AA_passes (Standin.two_colour (of_Z 76))
              "#000000" "#ffffff" no_options (of_Z 76) eq_refl)
    as (r & Hr & HR).
  exists r. split; [exact Hr |]. apply HR. left.
  assert (X : Some r = Some r) by reflexivity.
  rewrite <- Hr in X at 1. vm_compute in X. injection X as <-. reflexivity.
Defined.

(** X7.  A pass as body-text, large-text or ui-component is never rated
    fail, and a pass as body text below 24px at normal weight is rated AA
    or AAA; a result that passes and is rated fail belongs to non-text,
    placeholder or disabled. *)
Theorem pass_rated_fail_only_when_lenient
    (ext : Externals) (fg bg : string) (opts : Options) (score : number) :
  calcAPCA fg bg = Some score ->
  exists r : ContrastResult,
    checkContrast fg bg opts = Some r /\
    let u := or_default body_text opts.(useCase) in
    (passes r = true -> rating r = rating_fail ->
     u = non_text \/ u = placeholder \/ u = disabled) /\
    (passes r = true -> u = body_text ->
     geb (or_default (of_Z 16) opts.(fontSize)) (of_Z 24) = false ->
     or_default normal opts.(fontWeight) = normal ->
     rating r = rating_AA \/ rating r = rating_AAA).
Proof.
  intros H. rewrite (checkContrast_returns fg bg opts score H). cbv zeta.
  eexists; split; [reflexivity |]. cbn [rating passes]. split.
  - intros P R.
    destruct (or_default body_text (useCase opts)) eqn:U; auto; exfalso;
      assert (G : geb (Math_abs score) (of_Z 60) = true)
        by (eapply geb_weaken; [| exact P];
            match goal with
            | |- leb _ (getMinimumLc ?u ?s ?w) = true =>
                destruct (getMinimumLc_values u s w) as [E | [E | E]];
                rewrite E; try reflexivity;
                revert E; unfold getMinimumLc;
                cbn [UseCase_eqb negb USE_CASE_THRESHOLDS];
                try destruct (_ || _)%bool; discriminate
            end);
      apply getRating_at_least_A in G; rewrite R in G; cbn in G; lia.
  - intros P U S W. revert P. rewrite U. unfold getMinimumLc.
    cbn [UseCase_eqb negb]. rewrite S, W. cbn [orb FontWeight_eqb].
    intros P. unfold getRating. rewrite P.
    destruct (geb (Math_abs score) (of_Z 90)); auto.
Qed.

(** A score of 50 passes as disabled and is rated fail; a score of 76
    passes as small normal body text and is rated AA. *)
Lemma pass_rated_fail_only_when_lenient_witness :
  (exists r : ContrastResult,
      @checkContrast (Standin.two_colour (of_Z 50)) "#000000" "#ffffff"
        {| fontSize := None; fontWeight := None; useCase := Some disabled |}
        = Some r /\
      passes r = true /\ rating r = rating_fail) /\
  (exists r : ContrastResult,
      @checkContrast (Standin.two_colour (of_Z 76))
        "#000000" "#ffffff" no_options = Some r /\
      (rating r = rating_AA \/ rating r = rating_AAA)).
Proof.
  split.
  - eexists. split; [vm_compute; reflexivity |]. split; reflexivity.
  - destruct (pass_rated_fail_only_when_lenient
                (Standin.two_colour (of_Z 76))
                "#000000" "#ffffff" no_options (of_Z 76) eq_refl)
      as (r & Hr & _ & HR).
    exists r. split; [exact Hr |].
    apply HR; try reflexivity.
    assert (X : Some r = Some r) by reflexivity.
    rewrite <- Hr in X at 1. vm_compute in X. injection X as <-. reflexivity.
Defined.

Lemma mul_10_sign_set (x : number) :
  sign_set x -> sign_set (mul x (of_Z 10)).
Proof.
  change (of_Z 10) with (S754_finite false 5629499534213120 (-49)).
  destruct x as [s | s | | s m e]; cbn [sign_set]; intros H; subst;
    try exact I; try reflexivity.
  exact (binary_round_aux_sign true _ _ loc_Exact).
Qed.

Lemma div_10_sign_set (x : number) :
  sign_set x -> sign_set (div x (of_Z 10)).
Proof.
  change (of_Z 10) with (S754_finite false 5629499534213120 (-49)).
  destruct x as [s | s | | s m e]; cbn [sign_set]; intros H; subst;
    try exact I; try reflexivity.
  unfold div, SFdiv. cbn [xorb].
  destruct (SFdiv_core_binary prec emax (Zpos m) e _ _) as [[mz ez] lz].
  exact (binary_round_aux_sign true mz ez lz).
Qed.

Lemma of_Z_sign_set (n : Z) : n < 0 -> sign_set (of_Z n).
Proof.
  intros Hn. unfold of_Z, binary_normalize.
  destruct n as [| p | p]; [lia | lia |].
  unfold binary_round.
  destruct (shl_align p 0 _) as [mz ez].
  exact (binary_round_aux_sign true _ _ loc_Exact).
Qed.

Lemma Math_round_sign_set (x : number) :
  sign_set x -> sign_set (Math_round x).
Proof.
  destruct x as [s | s | | s m e]; cbn [Math_round sign_set]; try easy.
  intros ->. destruct (0 <=? e) eqn:He; [reflexivity |].
  cbn [cond_Zopp Z.opp].
  destruct (round_half_up (Zneg m) (- e) =? 0) eqn:Z0; [reflexivity |].
  apply of_Z_sign_set.
  apply Z.eqb_neq in Z0. apply Z.leb_gt in He.
  assert (round_half_up (Zneg m) (- e) < 1); [| lia].
  unfold round_half_up.
  assert (P : 0 < 2 ^ (- e)) by (apply Z.pow_pos_nonneg; lia).
  assert (Q : 2 ^ (- e + 1) = 2 * 2 ^ (- e))
    by (rewrite Z.pow_add_r by lia; lia).
  apply Z.div_lt_upper_bound; lia.
Qed.

Lemma round1_sign_set (x : number) : sign_set x -> sign_set (round1 x).
Proof.
  intros H. unfold round1.
  apply div_10_sign_set, Math_round_sign_set, mul_10_sign_set, H.
Qed.

Lemma sign_clear_not_below_zero (x : number) :
  sign_clear x -> ltb x (of_Z 0) = false.
Proof. destruct x as [s | s | | s m e]; cbn; intros H; subst; reflexivity. Qed.

Lemma sign_set_not_above_zero (x : number) :
  sign_set x -> ltb (of_Z 0) x = false.
Proof. destruct x as [s | s | | s m e]; cbn; intros H; subst; reflexivity. Qed.

Lemma Math_abs_is_sign_clear (x : number) : sign_clear (Math_abs x).
Proof. destruct x; exact I || reflexivity. Qed.

(** X8.  The signs of the two rounded fields: the returned [lcAbsolute] is
    never below zero (nor is it [-0]); a dark-on-light result never has a
    returned [lc] below zero, and a light-on-dark result never has one
    above zero. *)
Theorem returned_signs
    (ext : Externals) (fg bg : string) (opts : Options) (score : number) :
  calcAPCA fg bg = Some score ->
  exists r : ContrastResult,
    checkContrast fg bg opts = Some r /\
    sign_clear (lcAbsolute r) /\
    ltb (lcAbsolute r) (of_Z 0) = false /\
    (polarity r = dark_on_light -> ltb (lc r) (of_Z 0) = false) /\
    (polarity r = light_on_dark -> ltb (of_Z 0) (lc r) = false).
Proof.
  intros H. rewrite (checkContrast_returns fg bg opts score H). cbv zeta.
  eexists; split; [reflexivity |]. cbn [lcAbsolute lc polarity].
  assert (A : sign_clear (round1 (Math_abs score)))
    by apply round1_sign_clear, Math_abs_is_sign_clear.
  repeat apply conj.
  - exact A.
  - apply sign_clear_not_below_zero, A.
  - destruct (geb score (of_Z 0)) eqn:G; [intros _ | discriminate].
    destruct score as [s | s | | s m e]; try destruct s; try discriminate;
      try reflexivity;
      apply sign_clear_not_below_zero, round1_sign_clear; reflexivity.
  - destruct (geb score (of_Z 0)) eqn:G; [discriminate | intros _].
    apply sign_set_not_above_zero, round1_sign_set.
    destruct score as [s | s | | s m e]; try destruct s; try discriminate;
      exact I || reflexivity.
Qed.

(** A score of -0.04: returned as [lc = -0], which is not above zero. *)
Lemma returned_signs_witness :
  exists r : ContrastResult,
    @checkContrast (Standin.two_colour (Standin.decimal 4 2))
      "#ffffff" "#000000" no_options = Some r /\
    polarity r = light_on_dark /\
    ltb (of_Z 0) (lc r) = false /\
    ltb (lcAbsolute r) (of_Z 0) = false.
Proof.
  destruct (returned_signs (Standin.two_colour (Standin.decimal 4 2))
              "#ffffff" "#000000" no_options _ eq_refl)
    as (r & Hr & _ & Ha & _ & Hl).
  exists r. split; [exact Hr |].
  assert (P : polarity r = light_on_dark).
  { assert (X : Some r = Some r) by reflexivity.
    rewrite <- Hr in X at 1. vm_compute in X. injection X as <-.
    reflexivity. }
  split; [exact P |]. split; [exact (Hl P) | exact Ha].
Defined.

(** X9.  For every dark-on-light result the two rounded fields agree: the
    returned [lcAbsolute] is the absolute value of the returned [lc], the
    score [-0] included.  The two can differ for light-on-dark results
    only. *)
Theorem dark_on_light_lcAbsolute_is_abs_lc
    (ext : Externals) (fg bg : string) (opts : Options) (score : number) :
  calcAPCA fg bg = Some score ->
  exists r : ContrastResult,
    checkContrast fg bg opts = Some r /\
    (polarity r = dark_on_light -> lcAbsolute r = Math_abs (lc r)).
Proof.
  intros H. rewrite (checkContrast_returns fg bg opts score H). cbv zeta.
  eexists; split; [reflexivity |]. cbn [polarity lcAbsolute lc].
  destruct (geb score (of_Z 0)) eqn:G; [intros _ | discriminate].
  destruct score as [s | s | | s m e]; try destruct s; try discriminate;
    try reflexivity.
  change (Math_abs (S754_finite false m e)) with (S754_finite false m e).
  symmetry. apply Math_abs_sign_clear, round1_sign_clear. reflexivity.
Qed.

(** A dark-on-light score of 12.25, the tie at which a light-on-dark score
    breaks the agreement of the two fields. *)
Lemma dark_on_light_lcAbsolute_is_abs_lc_witness :
  exists r : ContrastResult,
    @checkContrast (Standin.two_colour (Standin.decimal 1225 2))
      "#000000" "#ffffff" no_options = Some r /\
    lcAbsolute r = Math_abs (lc r).
Proof.
  destruct (dark_on_light_lcAbsolute_is_abs_lc
              (Standin.two_colour (Standin.decimal 1225 2))
              "#000000" "#ffffff" no_options _ eq_refl)
    as (r & Hr & Hd).
  exists r. split; [exact Hr |]. apply Hd.
  assert (X : Some r = Some r) by reflexivity.
  rewrite <- Hr in X at 1. vm_compute in X. injection X as <-. reflexivity.
Defined.






(** X12.  The first words of a recommendation tell the band of the
    magnitude [m]: it opens with [Contrast is too low] exactly when
    [m < 15], with [Only suitable] exactly when [m < 15] fails and
    [m < 45] holds, and with [Increase contrast] exactly when both fail. *)
Theorem recommendation_opening
    (ext : Externals) (fg bg : string) (opts : Options) (score : number) :
  calcAPCA fg bg = Some score ->
  exists r : ContrastResult,
    checkContrast fg bg opts = Some r /\
    forall t : string,
      recommendation r = Some t ->
      let m := Math_abs score in
      String.prefix "Contrast is too low" t = ltb m (of_Z 15) /\
      String.prefix "Only suitable" t =
        (negb (ltb m (of_Z 15)) && ltb m (of_Z 45))%bool /\
      String.prefix "Increase contrast" t =
        (negb (ltb m (of_Z 15)) && negb (ltb m (of_Z 45)))%bool.
Proof.
  intros H. rewrite (checkContrast_returns fg bg opts score H). cbv zeta.
  eexists; split; [reflexivity |]. cbn [recommendation].
  intros t. unfold getRecommendation.
  destruct (geb (Math_abs score) _); [discriminate |].
  destruct (ltb (Math_abs score) (of_Z 15));
    [| destruct (ltb (Math_abs score) (of_Z 45))];
    intros E; injection E as <-; repeat apply conj; reflexivity.
Qed.

(** A score of 10.04 under the default threshold. *)
Lemma recommendation_opening_witness :
  exists r : ContrastResult,
    @checkContrast (Standin.two_colour (Standin.decimal 1004 2))
      "#000000" "#ffffff" no_options = Some r /\
    String.prefix "Contrast is too low"
      (too_low_message "10.0" "75" "body-text") = true.
Proof.
  destruct (recommendation_opening
              (Standin.two_colour (Standin.decimal 1004 2))
              "#000000" "#ffffff" no_options _ eq_refl)
    as (r & Hr & Ht).
  exists r. split; [exact Hr |].
  assert (X : Some r = Some r) by reflexivity.
  rewrite <- Hr in X at 1. vm_compute in X. injection X as <-.
  exact (proj1 (Ht _ eq_refl)).
Defined.

End EvaluatorProperties.

(* ================================================================== *)
(** * The five tools of the server *)
(* ================================================================== *)

Module ToolProperties.

Import Number Server Tools.

(** X13.  Every tool of the server is a placeholder: whatever the
    arguments, its callback returns one item of type [text] whose text
    opens with the [status] property set to [not_implemented]; the answer
    does not depend on the contrast primitive; and two different tools
    never give the same text, since each carries its own message. *)
Theorem every_tool_is_a_placeholder
    (ext : Externals) (t : Tool) (args : json) :
  (exists item : ContentItem,
      content (handler t args) = [item] /\
      type item = "text"%string /\
      substring 0 32 (text item) =
      ("{" ++ newline ++ "  " ++ dquote ++ "status" ++ dquote ++ ": " ++
       dquote ++ "not_implemented" ++ dquote ++ ",")%string) /\
  (forall calc : string -> string -> option number,
      @handler {| calcAPCA := calc; Number_toString := Number_toString |}
        t args = handler t args) /\
  (forall (t' : Tool) (args' : json),
      handler t args = handler t' args' -> t = t').
Proof.
  repeat apply conj.
  - destruct t; eexists; (split; [reflexivity |]); split;
      try reflexivity; vm_compute; reflexivity.
  - intros calc. destruct t; reflexivity.
  - intros t' args' E.
    assert (W : forall x y : ToolResult, x = y ->
                map (fun i => substring 49 10 (text i)) (content x) =
                map (fun i => substring 49 10 (text i)) (content y))
      by (intros x y ->; reflexivity).
    apply W in E.
    destruct t, t'; try reflexivity; exfalso;
      vm_compute in E; discriminate E.
Qed.

(** The [analyze_colors] tool called with no argument at all. *)
Lemma every_tool_is_a_placeholder_witness :
  (exists item : ContentItem,
      content (@handler (Standin.two_colour (of_Z 80))
                 analyze_colors (JObject [])) = [item] /\
      type item = "text"%string) /\
  (forall t' : Tool,
      @handler (Standin.two_colour (of_Z 80)) analyze_colors (JObject []) =
      @handler (Standin.two_colour (of_Z 80)) t' (JObject []) ->
      analyze_colors = t').
Proof.
  pose proof (every_tool_is_a_placeholder (Standin.two_colour (of_Z 80))
                analyze_colors (JObject [])) as (Hitem & _ & Hinj).
  split.
  - destruct Hitem as (item & Hc & Ht & _). exists item. split; assumption.
  - intros t' E. exact (Hinj t' (JObject []) E).
Defined.

End ToolProperties.

(* ================================================================== *)
(** * Rounding to one decimal, on binary64 *)
(* ================================================================== *)

(** [Math.round(x * 10) / 10] is three roundings: of the product, to the
    nearest integer, and of the quotient.  Each keeps a bound that is
    itself a number of the format; the section follows the integer
    arithmetic of [binary_round_aux]. *)

Module RoundingProofs.

Import Number Apca NumberOrder Bounds.

Lemma digits2_pos_bounds (p : positive) :
  2 ^ (Zpos (digits2_pos p) - 1) <= Zpos p < 2 ^ Zpos (digits2_pos p).
Proof.
  induction p as [p IH | p IH |]; cbn [digits2_pos].
  - rewrite Pos2Z.inj_succ.
    replace (Z.succ (Zpos (digits2_pos p)) - 1) with (Z.succ (Zpos (digits2_pos p) - 1)) by lia.
    rewrite !Z.pow_succ_r by lia. lia.
  - rewrite Pos2Z.inj_succ.
    replace (Z.succ (Zpos (digits2_pos p)) - 1) with (Z.succ (Zpos (digits2_pos p) - 1)) by lia.
    rewrite !Z.pow_succ_r by lia. lia.
  - cbn. lia.
Qed.

Lemma shr_1_m (mrs : shr_record) :
  0 <= shr_m mrs -> shr_m (shr_1 mrs) = shr_m mrs / 2.
Proof.
  destruct mrs as [m r s]. cbn [shr_m shr_1].
  destruct m as [| [p | p |] | p]; cbn [shr_m]; intros H; try lia.
  - reflexivity.
  - rewrite (Pos2Z.inj_xI p). apply Z.div_unique with 1; lia.
  - rewrite (Pos2Z.inj_xO p). apply Z.div_unique with 0; lia.
  - reflexivity.
Qed.

Lemma iter_pos_shr_1_m (n : positive) (mrs : shr_record) :
  0 <= shr_m mrs ->
  shr_m (iter_pos shr_1 n mrs) = shr_m mrs / 2 ^ Zpos n.
Proof.
  revert mrs. induction n as [n IH | n IH |]; intros mrs H; cbn [iter_pos].
  - assert (H1 : 0 <= shr_m (shr_1 mrs)) by (rewrite shr_1_m by lia; apply Z.div_pos; lia).
    assert (H2 : 0 <= shr_m (iter_pos shr_1 n (shr_1 mrs)))
      by (rewrite IH by lia; apply Z.div_pos; [lia | apply Z.pow_pos_nonneg; lia]).
    rewrite IH, IH, shr_1_m by lia.
    rewrite !Z.div_div by (try lia; apply Z.pow_pos_nonneg; lia).
    assert (E : 2 ^ Zpos n~1 = 2 * 2 ^ Zpos n * 2 ^ Zpos n).
    { rewrite (Pos2Z.inj_xI n), Z.pow_add_r by lia.
      replace (2 * Z.pos n) with (Z.pos n + Z.pos n) by lia.
      rewrite Z.pow_add_r by lia. change (2 ^ 1) with 2. ring. }
    rewrite E. f_equal. ring.
  - assert (H2 : 0 <= shr_m (iter_pos shr_1 n mrs))
      by (rewrite IH by lia; apply Z.div_pos; [lia | apply Z.pow_pos_nonneg; lia]).
    rewrite IH, IH by lia.
    rewrite !Z.div_div by (try lia; apply Z.pow_pos_nonneg; lia).
    assert (E : 2 ^ Zpos n~0 = 2 ^ Zpos n * 2 ^ Zpos n).
    { rewrite (Pos2Z.inj_xO n).
      replace (2 * Z.pos n) with (Z.pos n + Z.pos n) by lia.
      rewrite Z.pow_add_r by lia. reflexivity. }
    rewrite E. f_equal.
  - rewrite shr_1_m by lia. reflexivity.
Qed.

Lemma digits2_pos_unique (p : positive) (k : Z) :
  2 ^ (k - 1) <= Zpos p < 2 ^ k -> Zpos (digits2_pos p) = k.
Proof.
  intros [Hlo Hhi].
  pose proof (digits2_pos_bounds p) as [Dlo Dhi].
  set (d := Zpos (digits2_pos p)) in *.
  assert (0 < d) by (subst d; lia).
  destruct (Z.lt_trichotomy d k) as [L | [E | G]]; [exfalso | exact E | exfalso].
  - assert (2 ^ d <= 2 ^ (k - 1)) by (apply Z.pow_le_mono_r; lia). lia.
  - assert (k <= 0 \/ 0 < k) as [K | K] by lia.
    + assert (2 ^ k <= 2 ^ 0) by (destruct (Z.eq_dec k 0) as [-> | ?];
        [lia | rewrite Z.pow_neg_r by lia; cbn; lia]).
      cbn in *. lia.
    + assert (2 ^ k <= 2 ^ (d - 1)) by (apply Z.pow_le_mono_r; lia). lia.
Qed.

Lemma shr_record_of_loc_m (m : Z) (l : location) :
  shr_m (shr_record_of_loc m l) = m.
Proof. destruct l as [| []]; reflexivity. Qed.

Lemma shr_fexp_spec (m e : Z) (l : location) (mrs : shr_record) (e' : Z) :
  0 < m ->
  e <= fexp prec emax (Zdigits2 m + e) ->
  shr_fexp prec emax m e l = (mrs, e') ->
  shr_m mrs = m / 2 ^ (fexp prec emax (Zdigits2 m + e) - e) /\
  e' = fexp prec emax (Zdigits2 m + e).
Proof.
  intros Hm Hf. unfold shr_fexp, shr.
  set (f := fexp prec emax (Zdigits2 m + e)) in *.
  destruct (f - e) as [| n | n] eqn:N; intros E; injection E as <- <-.
  - rewrite shr_record_of_loc_m. cbn. rewrite Z.div_1_r. lia.
  - rewrite iter_pos_shr_1_m by (rewrite shr_record_of_loc_m; lia).
    rewrite shr_record_of_loc_m. lia.
  - lia.
Qed.

Lemma round_nearest_even_bounds (m : Z) (l : location) :
  m <= round_nearest_even m l <= m + 1.
Proof.
  unfold round_nearest_even. destruct l as [| []]; try lia.
  destruct (Z.even m); lia.
Qed.

Lemma fexp_unfold (k : Z) : fexp prec emax k = Z.max (k - 53) (-1074).
Proof. reflexivity. Qed.

(** Lower bound kept by rounding. *)
Lemma binary_round_aux_lower
    (mx ex : Z) (lx : location) (mT eT c : Z) :
  2 ^ 52 <= mx ->
  2 ^ 52 <= mT < 2 ^ 53 ->
  -1074 < eT ->
  c <= ex -> c <= eT ->
  mT * 2 ^ (eT - c) <= mx * 2 ^ (ex - c) ->
  match binary_round_aux prec emax false mx ex lx with
  | S754_finite false m e =>
      (eT < e \/ (e = eT /\ mT <= Zpos m)) /\ 2 ^ 52 <= Zpos m < 2 ^ 53
  | S754_infinity false => True
  | _ => False
  end.
Proof.
  intros Hmx HmT HeT Hc1 Hc2 Hv.
  destruct mx as [| px | px]; try (cbn in Hmx; lia).
  pose proof (digits2_pos_bounds px) as [Dlo Dhi].
  set (d := Zpos (digits2_pos px)) in *.
  assert (Hd : 53 <= d).
  { destruct (Z.lt_ge_cases d 53) as [L | G]; [exfalso | exact G].
    assert (2 ^ d <= 2 ^ 52) by (apply Z.pow_le_mono_r; lia). lia. }
  unfold binary_round_aux.
  destruct (shr_fexp prec emax (Zpos px) ex lx) as [mrs' e'] eqn:S1.
  apply shr_fexp_spec in S1; [| lia | cbn [Zdigits2]; fold d; rewrite fexp_unfold; lia].
  cbn [Zdigits2] in S1. fold d in S1. rewrite fexp_unfold in S1.
  destruct S1 as [Hm1 He'].
  set (f := Z.max (d + ex - 53) (-1074)) in *.
  set (m1 := shr_m mrs') in *.
  assert (Pn : 0 < 2 ^ (f - ex)) by (apply Z.pow_pos_nonneg; lia).
  assert (Pc : 0 < 2 ^ (ex - c)) by (apply Z.pow_pos_nonneg; lia).
  (* the shifted mantissa has at most 53 digits *)
  assert (Hm1hi : m1 < 2 ^ 53).
  { rewrite Hm1. apply Z.div_lt_upper_bound; [lia |].
    rewrite <- Z.pow_add_r by lia.
    assert (2 ^ d <= 2 ^ (f - ex + 53)) by (apply Z.pow_le_mono_r; lia). lia. }
  assert (Hm1lo : 0 <= m1) by (rewrite Hm1; apply Z.div_pos; lia).
  (* what the shift drops is less than one unit *)
  assert (Hfloor : Zpos px < (m1 + 1) * 2 ^ (f - ex)).
  { rewrite Hm1.
    pose proof (Z.mul_succ_div_gt (Zpos px) (2 ^ (f - ex)) Pn). lia. }
  (* the exponent reached by the shift, against the bound *)
  assert (A : eT <= f).
  { destruct (Z.lt_ge_cases f eT) as [L | G]; [exfalso | lia].
    assert (E1 : 2 ^ (f - c) = 2 ^ (f - ex) * 2 ^ (ex - c))
      by (rewrite <- Z.pow_add_r by lia; f_equal; lia).
    assert (E2 : 2 * 2 ^ (f - c) <= 2 ^ (eT - c)).
    { change 2 with (2 ^ 1) at 1. rewrite <- Z.pow_add_r by lia.
      apply Z.pow_le_mono_r; lia. }
    assert (Pf : 0 < 2 ^ (f - c)) by (apply Z.pow_pos_nonneg; lia).
    assert (Zpos px * 2 ^ (ex - c) < 2 ^ 53 * 2 ^ (f - c)) by nia.
    assert (2 ^ 53 * 2 ^ (f - c) <= mT * 2 ^ (eT - c)).
    { change (2 ^ 53) with (2 ^ 52 * 2). nia. }
    lia. }
  assert (Hf : f = d + ex - 53) by lia.
  assert (Hm1lo' : 2 ^ 52 <= m1).
  { rewrite Hm1. apply Z.div_le_lower_bound; [lia |].
    rewrite <- Z.pow_add_r by lia.
    replace (f - ex + 52) with (d - 1) by lia. lia. }
  (* the shifted mantissa, against the bound *)
  assert (B : eT < f \/ (f = eT /\ mT <= m1)).
  { destruct (Z.eq_dec f eT) as [E | N]; [right | left; lia].
    split; [exact E |]. rewrite Hm1.
    apply Z.div_le_lower_bound; [lia |].
    assert (E1 : 2 ^ (eT - c) = 2 ^ (f - ex) * 2 ^ (ex - c))
      by (rewrite <- Z.pow_add_r by lia; f_equal; lia).
    rewrite E1 in Hv. nia. }
  pose proof (round_nearest_even_bounds m1 (loc_of_shr_record mrs')) as [R1 R2].
  set (m2 := round_nearest_even m1 (loc_of_shr_record mrs')) in *.
  destruct (shr_fexp prec emax m2 e' loc_Exact) as [mrs'' e''] eqn:S2.
  destruct m2 as [| p2 | p2] eqn:M2; try lia.
  assert (C : Zpos p2 < 2 ^ 53 \/ Zpos p2 = 2 ^ 53) by lia.
  destruct C as [C | C].
  - assert (D2 : Zpos (digits2_pos p2) = 53)
      by (apply digits2_pos_unique; change (53 - 1) with 52; lia).
    apply shr_fexp_spec in S2;
      [| lia | cbn [Zdigits2]; rewrite D2, fexp_unfold; lia].
    cbn [Zdigits2] in S2. rewrite D2, fexp_unfold in S2.
    destruct S2 as [Hm3 He''].
    replace (Z.max (53 + e' - 53) (-1074)) with e' in * by lia.
    rewrite Z.sub_diag in Hm3. cbn in Hm3. rewrite Z.div_1_r in Hm3.
    rewrite Hm3. subst e''.
    destruct (e' <=? emax - prec); [| exact I].
    split; [| lia]. subst e'. destruct B as [B | [B1 B2]]; [left; lia | right; lia].
  - assert (D2 : Zpos (digits2_pos p2) = 54)
      by (apply digits2_pos_unique; rewrite C; change (54 - 1) with 53;
          split; [lia | apply Z.pow_lt_mono_r; lia]).
    apply shr_fexp_spec in S2;
      [| lia | cbn [Zdigits2]; rewrite D2, fexp_unfold; lia].
    cbn [Zdigits2] in S2. rewrite D2, fexp_unfold in S2.
    destruct S2 as [Hm3 He''].
    replace (Z.max (54 + e' - 53) (-1074)) with (e' + 1) in * by lia.
    replace (e' + 1 - e') with 1 in Hm3 by lia.
    rewrite C in Hm3. change (2 ^ 53 / 2 ^ 1) with (2 ^ 52) in Hm3.
    rewrite Hm3. cbn -[Z.pow Z.leb emax prec].
    destruct (e'' <=? emax - prec); [| exact I].
    change (Zpos 4503599627370496) with (2 ^ 52).
    split; [left; lia | lia].
Qed.

Lemma at_least_geb (pT : positive) (eT : Z) (x : number) :
  at_least (Zpos pT) eT x -> geb x (S754_finite false pT eT) = true.
Proof.
  destruct x as [s | [|] | | [|] m e]; cbn [at_least]; intros H;
    try contradiction; try reflexivity.
  destruct H as [[L | [-> L]] _]; unfold geb, SFleb, SFcompare.
  - rewrite (proj2 (Z.compare_lt_iff eT e) L). reflexivity.
  - rewrite Z.compare_refl.
    change (Pos.compare_cont Eq pT m) with (Pos.compare pT m).
    destruct (Pos.compare_spec pT m); try reflexivity. lia.
Qed.

Lemma geb_at_least (pT : positive) (eT : Z) (x : number) :
  2 ^ 52 <= Zpos pT < 2 ^ 53 -> -1074 < eT ->
  is_number x = true ->
  geb x (S754_finite false pT eT) = true ->
  at_least (Zpos pT) eT x.
Proof.
  intros HT HeT V.
  destruct x as [s | [|] | | [|] m e]; cbn [at_least]; try discriminate;
    try (intros _; exact I).
  unfold geb, SFleb, SFcompare.
  change (Pos.compare_cont Eq pT m) with (Pos.compare pT m).
  intros G.
  assert (L : eT < e \/ (e = eT /\ Zpos pT <= Zpos m)).
  { destruct (Z.compare_spec eT e) as [E | L | L]; try discriminate.
    - right. split; [lia |].
      destruct (Pos.compare_spec pT m); try discriminate; lia.
    - left. exact L. }
  split; [exact L |].
  unfold is_number, valid_binary, bounded, canonical_mantissa in V.
  apply andb_prop in V. destruct V as [V _]. apply Z.eqb_eq in V.
  rewrite fexp_unfold in V.
  pose proof (digits2_pos_bounds m) as B.
  assert (D : Zpos (digits2_pos m) = 53) by lia.
  rewrite D in B. change (53 - 1) with 52 in B. exact B.
Qed.

Lemma at_least_value (mT eT : Z) (s : bool) (m : positive) (e : Z) :
  2 ^ 52 <= mT < 2 ^ 53 ->
  at_least mT eT (S754_finite s m e) ->
  s = false /\ eT <= e /\ mT <= Zpos m * 2 ^ (e - eT).
Proof.
  intros HT. destruct s; cbn [at_least]; [tauto |].
  intros [[L | [-> L]] N]; split; try reflexivity.
  - split; [lia |].
    assert (2 ^ 1 <= 2 ^ (e - eT)) by (apply Z.pow_le_mono_r; lia).
    change (2 ^ 1) with 2 in *. change (2 ^ 53) with (2 ^ 52 * 2) in HT. nia.
  - split; [lia |]. rewrite Z.sub_diag. cbn. lia.
Qed.

Lemma ten_is : of_Z 10 = S754_finite false 5629499534213120 (-49).
Proof. reflexivity. Qed.

(** Multiplication by ten. *)
Lemma mul_10_at_least (mT eT mT' eT' k : Z) (x : number) :
  2 ^ 52 <= mT < 2 ^ 53 ->
  2 ^ 52 <= mT' < 2 ^ 53 ->
  -1074 < eT' ->
  0 <= k -> eT' = eT - 49 + k ->
  mT' * 2 ^ k <= mT * m10 ->
  at_least mT eT x ->
  at_least mT' eT' (mul x (of_Z 10)).
Proof.
  intros HT HT' HeT' Hk He Hc Hx. rewrite ten_is.
  destruct x as [s | [|] | | s m e]; try (cbn in Hx; tauto); try exact I.
  destruct (at_least_value mT eT s m e HT Hx) as (-> & Hle & Hv).
  unfold mul, SFmul. cbn [xorb].
  apply (binary_round_aux_lower _ _ _ mT' eT' (eT - 49)); [| lia .. |].
  { cbn [at_least] in Hx. lia. }
  replace (eT' - (eT - 49)) with k by lia.
  replace (e + -49 - (eT - 49)) with (e - eT) by lia.
  rewrite (Pos2Z.inj_mul m 5629499534213120).
  change (Zpos 5629499534213120) with m10.
  assert (0 <= 2 ^ (e - eT)) by (apply Z.pow_nonneg; lia).
  assert (mT * m10 <= Zpos m * 2 ^ (e - eT) * m10)
    by (apply Z.mul_le_mono_nonneg_r; [unfold m10; lia | exact Hv]).
  lia.
Qed.

Lemma iter_xO (p d : positive) :
  Zpos (Pos.iter xO p d) = Zpos p * 2 ^ Zpos d.
Proof.
  revert p. induction d as [| d IH] using Pos.peano_ind; intros p.
  - cbn. lia.
  - rewrite Pos.iter_succ, Pos2Z.inj_xO, IH, Pos2Z.inj_succ,
      Z.pow_succ_r by lia. ring.
Qed.

(** An integer of at least [N] becomes a number of at least [N]. *)
Lemma of_Z_at_least (mT eT N n : Z) :
  2 ^ 52 <= mT < 2 ^ 53 ->
  -1074 < eT -> eT <= 0 ->
  mT = N * 2 ^ (- eT) ->
  N <= n -> 0 < n ->
  at_least mT eT (of_Z n).
Proof.
  intros HT HeT HeT0 HN Hn Hpos.
  destruct n as [| p | p]; try lia.
  unfold of_Z, binary_normalize, binary_round.
  pose proof (digits2_pos_bounds p) as [Dlo Dhi].
  set (d := Zpos (digits2_pos p)) in *.
  assert (Hd : 0 < d) by (subst d; lia).
  rewrite Z.add_0_r, fexp_unfold.
  unfold shl_align.
  destruct (Z.max (d - 53) (-1074) - 0) as [| q | q] eqn:Q.
  - (* 53 digits: no alignment *)
    assert (d = 53) by lia.
    apply (binary_round_aux_lower _ _ _ mT eT eT); try lia.
    + replace 52 with (d - 1) by lia. exact Dlo.
    + rewrite Z.sub_diag, Z.mul_1_r, HN.
      assert (0 < 2 ^ (- eT)) by (apply Z.pow_pos_nonneg; lia).
      replace (0 - eT) with (- eT) by lia. nia.
  - (* more than 53 digits: no alignment *)
    assert (53 < d) by lia.
    apply (binary_round_aux_lower _ _ _ mT eT eT); try lia.
    + assert (2 ^ 52 <= 2 ^ (d - 1)) by (apply Z.pow_le_mono_r; lia). lia.
    + rewrite Z.sub_diag, Z.mul_1_r, HN.
      assert (0 < 2 ^ (- eT)) by (apply Z.pow_pos_nonneg; lia).
      replace (0 - eT) with (- eT) by lia. nia.
  - (* fewer than 53 digits: aligned to 53 *)
    assert (Hq : Zpos q = 53 - d) by lia.
    assert (Hf : Z.max (d - 53) (-1074) = d - 53) by lia.
    rewrite Hf.
    assert (P1 : 2 ^ (d - 1) * 2 ^ Zpos q = 2 ^ 52)
      by (rewrite <- Z.pow_add_r by lia; f_equal; lia).
    assert (P2 : 0 < 2 ^ Zpos q) by (apply Z.pow_pos_nonneg; lia).
    apply (binary_round_aux_lower _ _ _ mT eT (Z.min eT (d - 53))); try lia.
    + rewrite iter_xO. nia.
    + rewrite iter_xO, HN.
      set (c := Z.min eT (d - 53)).
      assert (E1 : 2 ^ (- eT) * 2 ^ (eT - c) = 2 ^ (- c))
        by (rewrite <- Z.pow_add_r by lia; f_equal; lia).
      assert (E2 : 2 ^ Zpos q * 2 ^ (d - 53 - c) = 2 ^ (- c))
        by (rewrite <- Z.pow_add_r by lia; f_equal; lia).
      assert (0 < 2 ^ (- c)) by (apply Z.pow_pos_nonneg; lia).
      rewrite <- Z.mul_assoc, E1, <- Z.mul_assoc, E2. nia.
Qed.

(** [Math.round] keeps an integer lower bound. *)
Lemma Math_round_at_least (mT eT N : Z) (x : number) :
  2 ^ 52 <= mT < 2 ^ 53 ->
  -1074 < eT -> eT <= 0 ->
  mT = N * 2 ^ (- eT) -> 0 < N ->
  at_least mT eT x ->
  at_least mT eT (Math_round x).
Proof.
  intros HT HeT HeT0 HN HNpos Hx.
  destruct x as [s | [|] | | s m e]; try (cbn in Hx; tauto); try exact I.
  destruct (at_least_value mT eT s m e HT Hx) as (-> & Hle & Hv).
  cbn [Math_round]. destruct (0 <=? e) eqn:E0; [exact Hx |].
  apply Z.leb_gt in E0. cbn [cond_Zopp].
  assert (Hn : N <= round_half_up (Zpos m) (- e)).
  { unfold round_half_up.
    assert (P : 0 < 2 ^ (- e)) by (apply Z.pow_pos_nonneg; lia).
    assert (Q : 2 ^ (- e + 1) = 2 * 2 ^ (- e))
      by (rewrite Z.pow_add_r by lia; lia).
    apply Z.div_le_lower_bound; [lia |].
    assert (E1 : 2 ^ (- eT) = 2 ^ (- e) * 2 ^ (e - eT))
      by (rewrite <- Z.pow_add_r by lia; f_equal; lia).
    assert (P2 : 0 < 2 ^ (e - eT)) by (apply Z.pow_pos_nonneg; lia).
    rewrite HN, E1 in Hv.
    assert (N * 2 ^ (- e) <= Zpos m) by nia.
    nia. }
  destruct (round_half_up (Zpos m) (- e) =? 0) eqn:Z0.
  - apply Z.eqb_eq in Z0. lia.
  - apply (of_Z_at_least mT eT N); try assumption; lia.
Qed.

Lemma SFdiv_core_by_ten (m : positive) (e : Z) :
  2 ^ 52 <= Zpos m < 2 ^ 53 -> -1070 <= e ->
  exists l : location,
    SFdiv_core_binary prec emax (Zpos m) e (Zpos 5629499534213120) (-49) =
    (Zpos m * 2 ^ 53 / m10, e - 4, l).
Proof.
  intros Hm He. unfold SFdiv_core_binary.
  assert (D : Zdigits2 (Zpos m) = 53)
    by (cbn [Zdigits2]; apply digits2_pos_unique; change (53 - 1) with 52; lia).
  rewrite D.
  change (Zdigits2 (Zpos 5629499534213120)) with 53.
  rewrite fexp_unfold.
  replace (Z.min (Z.max (53 + e - (53 + -49) - 53) (-1074)) (e - -49))
    with (e - 4) by lia.
  replace (e - -49 - (e - 4)) with 53 by lia.
  rewrite Z.shiftl_mul_pow2 by lia.
  unfold m10, Z.div.
  destruct (Z.div_eucl (Zpos m * 2 ^ 53) (Zpos 5629499534213120)) as [q r].
  eexists. reflexivity.
Qed.

(** Division by ten. *)
Lemma div_10_at_least (mT eT mT' eT' k : Z) (x : number) :
  2 ^ 52 <= mT < 2 ^ 53 ->
  2 ^ 52 <= mT' < 2 ^ 53 ->
  -1074 < eT -> -1070 <= eT' ->
  0 <= k -> eT' = eT - 49 + k ->
  mT * m10 <= mT' * 2 ^ k ->
  at_least mT' eT' x ->
  at_least mT eT (div x (of_Z 10)).
Proof.
  intros HT HT' HeT HeT' Hk He Hc Hx. rewrite ten_is.
  destruct x as [s | [|] | | s m e]; try (cbn in Hx; tauto); try exact I.
  destruct (at_least_value mT' eT' s m e HT' Hx) as (-> & Hle & Hv).
  assert (N : 2 ^ 52 <= Zpos m < 2 ^ 53) by (cbn [at_least] in Hx; lia).
  unfold div, SFdiv. cbn [xorb].
  destruct (SFdiv_core_by_ten m e N ltac:(lia)) as [l ->].
  set (q := Zpos m * 2 ^ 53 / m10).
  assert (M : 0 < m10) by (unfold m10; lia).
  assert (Hq : 2 ^ 52 <= q).
  { apply Z.div_le_lower_bound; [exact M |].
    assert (m10 * 2 ^ 52 <= 2 ^ 53 * 2 ^ 52)
      by (apply Z.mul_le_mono_nonneg_r; [lia | unfold m10; cbn; lia]).
    assert (2 ^ 52 * 2 ^ 53 <= Zpos m * 2 ^ 53)
      by (apply Z.mul_le_mono_nonneg_r; lia).
    lia. }
  destruct (Z.le_gt_cases (e - 4) eT) as [A | B].
  - (* the bound is a multiple of the unit of the quotient *)
    apply (binary_round_aux_lower _ _ _ mT eT (e - 4)); [exact Hq | lia .. |].
    rewrite Z.sub_diag, Z.mul_1_r.
    apply Z.div_le_lower_bound; [exact M |].
    assert (P1 : 0 < 2 ^ (eT - (e - 4))) by (apply Z.pow_pos_nonneg; lia).
    assert (E1 : 2 ^ k * 2 ^ (eT - (e - 4)) * 2 ^ (e - eT') = 2 ^ 53).
    { rewrite <- !Z.pow_add_r by lia. f_equal. lia. }
    assert (P2 : 0 < 2 ^ (e - eT')) by (apply Z.pow_pos_nonneg; lia).
    assert (P3 : 0 < 2 ^ k) by (apply Z.pow_pos_nonneg; lia).
    assert (S1 : m10 * (mT * 2 ^ (eT - (e - 4))) <=
                 mT' * 2 ^ k * 2 ^ (eT - (e - 4))).
    { replace (m10 * (mT * 2 ^ (eT - (e - 4))))
        with (mT * m10 * 2 ^ (eT - (e - 4))) by ring.
      apply Z.mul_le_mono_nonneg_r; lia. }
    assert (S2 : mT' * (2 ^ k * 2 ^ (eT - (e - 4))) <=
                 Zpos m * 2 ^ (e - eT') * (2 ^ k * 2 ^ (eT - (e - 4)))).
    { apply Z.mul_le_mono_nonneg_r; [| exact Hv].
      apply Z.mul_nonneg_nonneg; lia. }
    replace (Zpos m * 2 ^ (e - eT') * (2 ^ k * 2 ^ (eT - (e - 4))))
      with (Zpos m * (2 ^ k * 2 ^ (eT - (e - 4)) * 2 ^ (e - eT'))) in S2
      by ring.
    rewrite E1 in S2. lia.
  - (* the quotient has a larger exponent than the bound *)
    apply (binary_round_aux_lower _ _ _ mT eT eT); [exact Hq | lia .. |].
    rewrite Z.sub_diag, Z.mul_1_r.
    assert (2 ^ 1 <= 2 ^ (e - 4 - eT)) by (apply Z.pow_le_mono_r; lia).
    change (2 ^ 1) with 2 in *.
    assert (2 ^ 52 * 2 <= q * 2 ^ (e - 4 - eT))
      by (apply Z.mul_le_mono_nonneg; lia).
    change (2 ^ 53) with (2 ^ 52 * 2) in HT. lia.
Qed.

Lemma round1_keeps_lower_bound (T : Z) (x : number) :
  integral_bound T = true ->
  is_number x = true ->
  geb x (of_Z T) = true ->
  geb (round1 x) (of_Z T) = true.
Proof.
  unfold integral_bound.
  destruct (of_Z T) as [| | | [|] pT eT] eqn:ET; try discriminate.
  destruct (of_Z (10 * T)) as [| | | [|] pT' eT'] eqn:ET'; try discriminate.
  cbv zeta. intros C V G.
  repeat (apply andb_prop in C; destruct C as [C ?]).
  repeat match goal with
         | H : (_ <=? _) = true |- _ => apply Z.leb_le in H
         | H : (_ <? _) = true |- _ => apply Z.ltb_lt in H
         | H : (_ =? _) = true |- _ => apply Z.eqb_eq in H
         end.
  apply at_least_geb.
  apply (div_10_at_least (Zpos pT) eT (Zpos pT') eT' (eT' - eT + 49));
    try lia.
  apply (Math_round_at_least (Zpos pT') eT' (10 * T)); try lia.
  apply (mul_10_at_least (Zpos pT) eT (Zpos pT') eT' (eT' - eT + 49));
    try lia.
  apply geb_at_least; try assumption; lia.
Qed.

Example thresholds_are_integral_bounds :
  forallb integral_bound [15; 45; 60; 75; 90] = true.
Proof. vm_compute. reflexivity. Qed.

Lemma shr_1_even (b : Z) :
  0 <= b ->
  shr_1 {| shr_m := 2 * b; shr_r := false; shr_s := false |} =
  {| shr_m := b; shr_r := false; shr_s := false |}.
Proof. destruct b as [| p | p]; intros H; try lia; reflexivity. Qed.

Lemma iter_pos_shr_1_exact (n : positive) (a : Z) :
  0 <= a ->
  iter_pos shr_1 n
    {| shr_m := a * 2 ^ Zpos n; shr_r := false; shr_s := false |} =
  {| shr_m := a; shr_r := false; shr_s := false |}.
Proof.
  revert a. induction n as [n IH | n IH |]; intros a Ha; cbn [iter_pos].
  - assert (E : a * 2 ^ Zpos n~1 = 2 * (a * 2 ^ Zpos n * 2 ^ Zpos n)).
    { rewrite (Pos2Z.inj_xI n), Z.pow_add_r by lia.
      replace (2 * Z.pos n) with (Z.pos n + Z.pos n) by lia.
      rewrite Z.pow_add_r by lia. change (2 ^ 1) with 2. ring. }
    assert (P : 0 < 2 ^ Zpos n) by (apply Z.pow_pos_nonneg; lia).
    rewrite E, shr_1_even by nia.
    rewrite IH by nia. apply IH, Ha.
  - assert (E : a * 2 ^ Zpos n~0 = a * 2 ^ Zpos n * 2 ^ Zpos n).
    { rewrite (Pos2Z.inj_xO n).
      replace (2 * Z.pos n) with (Z.pos n + Z.pos n) by lia.
      rewrite Z.pow_add_r by lia. ring. }
    assert (P : 0 < 2 ^ Zpos n) by (apply Z.pow_pos_nonneg; lia).
    rewrite E, IH by nia. apply IH, Ha.
  - change (2 ^ 1) with 2. rewrite Z.mul_comm. apply shr_1_even, Ha.
Qed.

Lemma shr_fexp_exact (m e : Z) (mrs : shr_record) (e' a : Z) :
  0 <= a ->
  e <= fexp prec emax (Zdigits2 m + e) ->
  m = a * 2 ^ (fexp prec emax (Zdigits2 m + e) - e) ->
  shr_fexp prec emax m e loc_Exact = (mrs, e') ->
  loc_of_shr_record mrs = loc_Exact.
Proof.
  intros Ha Hf Hm. unfold shr_fexp, shr.
  set (f := fexp prec emax (Zdigits2 m + e)) in *.
  destruct (f - e) as [| n | n] eqn:N; intros E; injection E as <- <-.
  - reflexivity.
  - cbn [shr_record_of_loc]. rewrite Hm, iter_pos_shr_1_exact by exact Ha.
    reflexivity.
  - reflexivity.
Qed.

Lemma shr_fexp_zero (e : Z) (l : location) (mrs : shr_record) (e' : Z) :
  shr_fexp prec emax 0 e l = (mrs, e') -> shr_m mrs = 0.
Proof.
  unfold shr_fexp, shr.
  destruct (fexp prec emax (Zdigits2 0 + e) - e) as [| n | n];
    intros E; injection E as <- <-;
    try apply shr_record_of_loc_m.
  rewrite iter_pos_shr_1_m by (rewrite shr_record_of_loc_m; lia).
  rewrite shr_record_of_loc_m. apply Z.div_0_l.
  apply Z.pow_nonzero; lia.
Qed.

(** Upper bound kept by rounding. *)
Lemma binary_round_aux_upper
    (mx ex : Z) (lx : location) (mT eT c : Z) :
  2 ^ 52 <= mx ->
  2 ^ 52 <= mT < 2 ^ 53 ->
  -1074 < eT -> eT <= 971 ->
  c <= ex -> c <= eT ->
  mx * 2 ^ (ex - c) <= mT * 2 ^ (eT - c) ->
  (lx <> loc_Exact -> mx * 2 ^ (ex - c) < mT * 2 ^ (eT - c)) ->
  at_most mT eT (binary_round_aux prec emax false mx ex lx) /\
  exponent_from ex (binary_round_aux prec emax false mx ex lx).
Proof.
  intros Hmx HmT HeT HeT' Hc1 Hc2 Hv Hstrict.
  destruct mx as [| px | px]; try (cbn in Hmx; lia).
  pose proof (digits2_pos_bounds px) as [Dlo Dhi].
  set (d := Zpos (digits2_pos px)) in *.
  assert (Hd : 53 <= d).
  { destruct (Z.lt_ge_cases d 53) as [L | G]; [exfalso | exact G].
    assert (2 ^ d <= 2 ^ 52) by (apply Z.pow_le_mono_r; lia). lia. }
  unfold binary_round_aux.
  destruct (shr_fexp prec emax (Zpos px) ex lx) as [mrs' e'] eqn:S1.
  pose proof S1 as S1'.
  apply shr_fexp_spec in S1; [| lia | cbn [Zdigits2]; fold d; rewrite fexp_unfold; lia].
  cbn [Zdigits2] in S1. fold d in S1. rewrite fexp_unfold in S1.
  destruct S1 as [Hm1 He'].
  set (f := Z.max (d + ex - 53) (-1074)) in *.
  set (m1 := shr_m mrs') in *.
  assert (Pn : 0 < 2 ^ (f - ex)) by (apply Z.pow_pos_nonneg; lia).
  assert (Pc : 0 < 2 ^ (ex - c)) by (apply Z.pow_pos_nonneg; lia).
  assert (Hm1hi : m1 < 2 ^ 53).
  { rewrite Hm1. apply Z.div_lt_upper_bound; [lia |].
    rewrite <- Z.pow_add_r by lia.
    assert (2 ^ d <= 2 ^ (f - ex + 53)) by (apply Z.pow_le_mono_r; lia). lia. }
  assert (Hm1lo : 0 <= m1) by (rewrite Hm1; apply Z.div_pos; lia).
  assert (Hfloor : m1 * 2 ^ (f - ex) <= Zpos px).
  { rewrite Hm1, Z.mul_comm. apply Z.mul_div_le. lia. }
  (* the exponent reached by the shift, against the bound *)
  assert (A : f <= eT).
  { destruct (Z.lt_ge_cases eT f) as [L | G]; [exfalso | lia].
    assert (Hf : f = d + ex - 53) by lia.
    assert (Hm1lo' : 2 ^ 52 <= m1).
    { rewrite Hm1. apply Z.div_le_lower_bound; [lia |].
      rewrite <- Z.pow_add_r by lia.
      replace (f - ex + 52) with (d - 1) by lia. lia. }
    assert (E1 : 2 ^ (f - c) = 2 ^ (f - ex) * 2 ^ (ex - c))
      by (rewrite <- Z.pow_add_r by lia; f_equal; lia).
    assert (E2 : 2 * 2 ^ (eT - c) <= 2 ^ (f - c)).
    { change 2 with (2 ^ 1) at 1. rewrite <- Z.pow_add_r by lia.
      apply Z.pow_le_mono_r; lia. }
    assert (Pf : 0 < 2 ^ (eT - c)) by (apply Z.pow_pos_nonneg; lia).
    assert (2 ^ 52 * 2 ^ (f - c) <= Zpos px * 2 ^ (ex - c)) by nia.
    assert (mT * 2 ^ (eT - c) < 2 ^ 52 * 2 ^ (f - c)).
    { change (2 ^ 53) with (2 ^ 52 * 2) in HmT. nia. }
    lia. }
  (* the shifted mantissa, against the bound *)
  assert (E3 : 2 ^ (eT - c) = 2 ^ (eT - f) * 2 ^ (f - ex) * 2 ^ (ex - c))
    by (rewrite <- !Z.pow_add_r by lia; f_equal; lia).
  assert (Pe : 0 < 2 ^ (eT - f)) by (apply Z.pow_pos_nonneg; lia).
  assert (Hpx : Zpos px <= mT * 2 ^ (eT - f) * 2 ^ (f - ex)).
  { rewrite E3 in Hv. nia. }
  assert (B : m1 <= mT * 2 ^ (eT - f)).
  { rewrite Hm1. apply Z.div_le_upper_bound; [lia |]. lia. }
  pose proof (round_nearest_even_bounds m1 (loc_of_shr_record mrs')) as [R1 R2].
  (* at the bound the rounding is exact *)
  assert (X : f = eT -> m1 = mT ->
              round_nearest_even m1 (loc_of_shr_record mrs') = m1).
  { intros F M.
    assert (Q : 2 ^ (eT - f) = 1) by (rewrite F, Z.sub_diag; reflexivity).
    assert (Epx : Zpos px = m1 * 2 ^ (f - ex)).
    { rewrite Q in Hpx. rewrite M in *. lia. }
    assert (L : lx = loc_Exact).
    { destruct lx as [| cmp]; [reflexivity | exfalso].
      assert (S : Zpos px * 2 ^ (ex - c) < mT * 2 ^ (eT - c))
        by (apply Hstrict; discriminate).
      rewrite E3, Q, Epx, M in S. lia. }
    subst lx.
    rewrite (shr_fexp_exact (Zpos px) ex mrs' e' m1 Hm1lo); try assumption.
    - reflexivity.
    - cbn [Zdigits2]. fold d. rewrite fexp_unfold. fold f. lia. }
  set (m2 := round_nearest_even m1 (loc_of_shr_record mrs')) in *.
  destruct (shr_fexp prec emax m2 e' loc_Exact) as [mrs'' e''] eqn:S2.
  destruct m2 as [| p2 | p2] eqn:M2; try lia.
  { rewrite (shr_fexp_zero _ _ _ _ S2). split; exact I. }
  assert (C : Zpos p2 < 2 ^ 53 \/ Zpos p2 = 2 ^ 53) by lia.
  destruct C as [C | C].
  - pose proof (digits2_pos_bounds p2) as [D2lo D2hi].
    set (d2 := Zpos (digits2_pos p2)) in *.
    assert (Hd2 : d2 <= 53).
    { destruct (Z.le_gt_cases d2 53) as [L | G]; [exact L | exfalso].
      assert (2 ^ 53 <= 2 ^ (d2 - 1)) by (apply Z.pow_le_mono_r; lia). lia. }
    assert (F2 : Z.max (d2 + e' - 53) (-1074) = e').
    { subst e'. destruct (Z.eq_dec f (-1074)) as [E | N]; [lia |].
      assert (Hf : f = d + ex - 53) by lia.
      assert (Hm1lo' : 2 ^ 52 <= m1).
      { rewrite Hm1. apply Z.div_le_lower_bound; [lia |].
        rewrite <- Z.pow_add_r by lia.
        replace (f - ex + 52) with (d - 1) by lia. lia. }
      assert (53 <= d2); [| lia].
      destruct (Z.lt_ge_cases d2 53) as [L | G]; [exfalso | exact G].
      assert (2 ^ d2 <= 2 ^ 52) by (apply Z.pow_le_mono_r; lia). lia. }
    apply shr_fexp_spec in S2;
      [| lia | cbn [Zdigits2]; fold d2; rewrite fexp_unfold; lia].
    cbn [Zdigits2] in S2. fold d2 in S2. rewrite fexp_unfold, F2 in S2.
    destruct S2 as [Hm3 He''].
    rewrite Z.sub_diag in Hm3. cbn in Hm3. rewrite Z.div_1_r in Hm3.
    rewrite Hm3. subst e''.
    assert (Le : e' <= emax - prec) by (unfold emax, prec; lia).
    apply Z.leb_le in Le. rewrite Le. subst e'.
    split; [| cbn [exponent_from]; lia].
    split; [| split; [exact C |]].
    + destruct (Z.eq_dec f eT) as [E | N]; [right | left; lia].
      split; [exact E |].
      rewrite E, Z.sub_diag in B. cbn in B.
      destruct (Z.eq_dec m1 mT) as [M | M]; [| lia].
      rewrite (X E M) in M2. lia.
    + intros Hf'.
      assert (Hf : f = d + ex - 53) by lia.
      assert (Hm1lo' : 2 ^ 52 <= m1); [| lia].
      rewrite Hm1. apply Z.div_le_lower_bound; [lia |].
      rewrite <- Z.pow_add_r by lia.
      replace (f - ex + 52) with (d - 1) by lia. lia.
  - assert (D2 : Zpos (digits2_pos p2) = 54)
      by (apply digits2_pos_unique; rewrite C; change (54 - 1) with 53;
          split; [lia | apply Z.pow_lt_mono_r; lia]).
    apply shr_fexp_spec in S2;
      [| lia | cbn [Zdigits2]; rewrite D2, fexp_unfold; lia].
    cbn [Zdigits2] in S2. rewrite D2, fexp_unfold in S2.
    destruct S2 as [Hm3 He''].
    replace (Z.max (54 + e' - 53) (-1074)) with (e' + 1) in * by lia.
    replace (e' + 1 - e') with 1 in Hm3 by lia.
    rewrite C in Hm3. change (2 ^ 53 / 2 ^ 1) with (2 ^ 52) in Hm3.
    change (2 ^ 52) with (Zpos 4503599627370496) in Hm3.
    rewrite Hm3. cbv iota beta.
    (* the mantissa overflowed, so the exponent was below the bound *)
    assert (Flt : f < eT).
    { destruct (Z.eq_dec f eT) as [E | N]; [exfalso | lia].
      rewrite E, Z.sub_diag in B. cbn in B.
      destruct (Z.eq_dec m1 mT) as [M | M]; [| lia].
      rewrite (X E M) in M2. lia. }
    assert (Le : e'' <= emax - prec) by (unfold emax, prec; lia).
    apply Z.leb_le in Le. rewrite Le.
    subst e'' e'.
    split; [| cbn [exponent_from]; lia].
    cbn [at_most]. change (Zpos 4503599627370496) with (2 ^ 52).
    split; [| lia].
    destruct (Z.eq_dec (f + 1) eT) as [E | N]; [right; lia | left; lia].
Qed.

Lemma at_most_leb (pT : positive) (eT : Z) (x : number) :
  at_most (Zpos pT) eT x -> leb x (S754_finite false pT eT) = true.
Proof.
  destruct x as [s | [|] | | [|] m e]; cbn [at_most]; intros H;
    try contradiction; try reflexivity.
  destruct H as [[L | [-> L]] _]; unfold leb, SFleb, SFcompare.
  - rewrite (proj2 (Z.compare_lt_iff e eT) L). reflexivity.
  - rewrite Z.compare_refl.
    change (Pos.compare_cont Eq m pT) with (Pos.compare m pT).
    destruct (Pos.compare_spec m pT); try reflexivity. lia.
Qed.

Lemma leb_at_most (pT : positive) (eT : Z) (x : number) :
  is_number x = true ->
  sign_clear x ->
  leb x (S754_finite false pT eT) = true ->
  at_most (Zpos pT) eT x.
Proof.
  intros V S.
  destruct x as [s | [|] | | [|] m e]; cbn [at_most]; try discriminate;
    try (intros _; exact I); try (cbn in S; discriminate).
  unfold leb, SFleb, SFcompare.
  change (Pos.compare_cont Eq m pT) with (Pos.compare m pT).
  intros G.
  assert (L : e < eT \/ (e = eT /\ Zpos m <= Zpos pT)).
  { destruct (Z.compare_spec e eT) as [E | L | L]; try discriminate.
    - right. split; [lia |].
      destruct (Pos.compare_spec m pT); try discriminate; lia.
    - left. exact L. }
  split; [exact L |].
  unfold is_number, valid_binary, bounded, canonical_mantissa in V.
  apply andb_prop in V. destruct V as [V _]. apply Z.eqb_eq in V.
  rewrite fexp_unfold in V.
  pose proof (digits2_pos_bounds m) as [Blo Bhi].
  set (d := Zpos (digits2_pos m)) in *.
  split.
  - assert (2 ^ d <= 2 ^ 53) by (apply Z.pow_le_mono_r; lia). lia.
  - intros He. assert (D : d = 53) by lia.
    rewrite D in Blo. exact Blo.
Qed.

Lemma at_most_value (mT eT : Z) (s : bool) (m : positive) (e c : Z) :
  2 ^ 52 <= mT ->
  c <= e -> c <= eT ->
  at_most mT eT (S754_finite s m e) ->
  s = false /\ Zpos m * 2 ^ (e - c) <= mT * 2 ^ (eT - c).
Proof.
  intros HT Hc1 Hc2. destruct s; cbn [at_most]; [tauto |].
  intros [[L | [-> L]] [N _]]; split; try reflexivity.
  - assert (E : 2 * 2 ^ (e - c) <= 2 ^ (eT - c)).
    { change 2 with (2 ^ 1) at 1. rewrite <- Z.pow_add_r by lia.
      apply Z.pow_le_mono_r; lia. }
    assert (P : 0 < 2 ^ (e - c)) by (apply Z.pow_pos_nonneg; lia).
    change (2 ^ 53) with (2 ^ 52 * 2) in N. nia.
  - apply Z.mul_le_mono_nonneg_r; [apply Z.pow_nonneg; lia | exact L].
Qed.

Lemma mul_10_at_most (mT eT mT' eT' k : Z) (x : number) :
  2 ^ 52 <= mT < 2 ^ 53 ->
  2 ^ 52 <= mT' < 2 ^ 53 ->
  -1074 < eT' -> eT' <= 971 ->
  0 <= k -> eT' = eT - 49 + k ->
  mT * m10 <= mT' * 2 ^ k ->
  at_most mT eT x ->
  at_most mT' eT' (mul x (of_Z 10)).
Proof.
  intros HT HT' HeT' HeT'' Hk He Hc Hx. rewrite ten_is.
  destruct x as [s | [|] | | s m e]; try (cbn in Hx; tauto);
    try (destruct s; exact I).
  set (c0 := Z.min e eT).
  destruct (at_most_value mT eT s m e c0 ltac:(lia) ltac:(lia) ltac:(lia) Hx)
    as (-> & Hv).
  unfold mul, SFmul. cbn [xorb].
  apply (binary_round_aux_upper _ _ _ mT' eT' (c0 - 49));
    [| lia .. | | intros N; exfalso; apply N; reflexivity].
  { rewrite (Pos2Z.inj_mul m 5629499534213120).
    assert (1 * 2 ^ 52 <= Zpos m * Zpos 5629499534213120)
      by (apply Z.mul_le_mono_nonneg; lia).
    lia. }
  replace (e + -49 - (c0 - 49)) with (e - c0) by lia.
  rewrite (Pos2Z.inj_mul m 5629499534213120).
  change (Zpos 5629499534213120) with m10.
  assert (E : 2 ^ (eT' - (c0 - 49)) = 2 ^ k * 2 ^ (eT - c0))
    by (rewrite <- Z.pow_add_r by lia; f_equal; lia).
  rewrite E.
  assert (P : 0 <= 2 ^ (eT - c0)) by (apply Z.pow_nonneg; lia).
  assert (S1 : Zpos m * 2 ^ (e - c0) * m10 <= mT * 2 ^ (eT - c0) * m10)
    by (apply Z.mul_le_mono_nonneg_r; [unfold m10; lia | exact Hv]).
  assert (S2 : mT * m10 * 2 ^ (eT - c0) <= mT' * 2 ^ k * 2 ^ (eT - c0))
    by (apply Z.mul_le_mono_nonneg_r; [exact P | exact Hc]).
  lia.
Qed.

Lemma of_Z_at_most (mT eT N n : Z) :
  2 ^ 52 <= mT < 2 ^ 53 ->
  -1074 < eT -> eT <= 0 ->
  mT = N * 2 ^ (- eT) ->
  0 < n -> n <= N ->
  at_most mT eT (of_Z n) /\ exponent_from (-52) (of_Z n).
Proof.
  intros HT HeT HeT0 HN Hpos Hn.
  destruct n as [| p | p]; try lia.
  unfold of_Z, binary_normalize, binary_round.
  pose proof (digits2_pos_bounds p) as [Dlo Dhi].
  set (d := Zpos (digits2_pos p)) in *.
  assert (Hd : 0 < d) by (subst d; lia).
  rewrite Z.add_0_r, fexp_unfold.
  unfold shl_align.
  assert (PT : 0 < 2 ^ (- eT)) by (apply Z.pow_pos_nonneg; lia).
  assert (Weak : forall ex (x : number),
             -52 <= ex -> exponent_from ex x -> exponent_from (-52) x).
  { intros ex x Hex. destruct x; cbn; try tauto. lia. }
  destruct (Z.max (d - 53) (-1074) - 0) as [| q | q] eqn:Q.
  - assert (d = 53) by lia.
    destruct (binary_round_aux_upper (Zpos p) 0 loc_Exact mT eT eT)
      as [U1 U2]; try lia.
    + replace 52 with (d - 1) by lia. exact Dlo.
    + rewrite Z.sub_diag, Z.mul_1_r, HN.
      replace (0 - eT) with (- eT) by lia.
      apply Z.mul_le_mono_nonneg_r; lia.
    + intros X; exfalso; apply X; reflexivity.
    + split; [exact U1 | apply (Weak 0); [lia | exact U2]].
  - assert (53 < d) by lia.
    destruct (binary_round_aux_upper (Zpos p) 0 loc_Exact mT eT eT)
      as [U1 U2]; try lia.
    + assert (2 ^ 52 <= 2 ^ (d - 1)) by (apply Z.pow_le_mono_r; lia). lia.
    + rewrite Z.sub_diag, Z.mul_1_r, HN.
      replace (0 - eT) with (- eT) by lia.
      apply Z.mul_le_mono_nonneg_r; lia.
    + intros X; exfalso; apply X; reflexivity.
    + split; [exact U1 | apply (Weak 0); [lia | exact U2]].
  - assert (Hq : Zpos q = 53 - d) by lia.
    assert (Hf : Z.max (d - 53) (-1074) = d - 53) by lia.
    rewrite Hf.
    assert (P1 : 2 ^ (d - 1) * 2 ^ Zpos q = 2 ^ 52)
      by (rewrite <- Z.pow_add_r by lia; f_equal; lia).
    assert (P2 : 0 < 2 ^ Zpos q) by (apply Z.pow_pos_nonneg; lia).
    set (c := Z.min eT (d - 53)).
    destruct (binary_round_aux_upper (Zpos (Pos.iter xO p q)) (d - 53)
                loc_Exact mT eT c) as [U1 U2]; try lia.
    + rewrite iter_xO. nia.
    + rewrite iter_xO, HN.
      assert (E1 : 2 ^ (- eT) * 2 ^ (eT - c) = 2 ^ (- c))
        by (rewrite <- Z.pow_add_r by lia; f_equal; lia).
      assert (E2 : 2 ^ Zpos q * 2 ^ (d - 53 - c) = 2 ^ (- c))
        by (rewrite <- Z.pow_add_r by lia; f_equal; lia).
      assert (0 < 2 ^ (- c)) by (apply Z.pow_pos_nonneg; lia).
      rewrite <- (Z.mul_assoc N), E1, <- (Z.mul_assoc (Zpos p)), E2.
      apply Z.mul_le_mono_nonneg_r; lia.
    + intros X; exfalso; apply X; reflexivity.
    + split; [exact U1 | apply (Weak (d - 53)); [lia | exact U2]].
Qed.

Lemma Math_round_at_most (mT eT N : Z) (x : number) :
  2 ^ 52 <= mT < 2 ^ 53 ->
  -1074 < eT -> eT <= 0 ->
  mT = N * 2 ^ (- eT) -> 0 < N ->
  at_most mT eT x ->
  at_most mT eT (Math_round x) /\ exponent_from (-52) (Math_round x).
Proof.
  intros HT HeT HeT0 HN HNpos Hx.
  destruct x as [s | [|] | | s m e]; try (cbn in Hx; tauto);
    try (split; exact I).
  set (c := Z.min e eT).
  destruct (at_most_value mT eT s m e c ltac:(lia) ltac:(lia) ltac:(lia) Hx)
    as (-> & Hv).
  cbn [Math_round]. destruct (0 <=? e) eqn:E0.
  { apply Z.leb_le in E0. split; [exact Hx | cbn; lia]. }
  apply Z.leb_gt in E0. cbn [cond_Zopp].
  assert (P : 0 < 2 ^ (- e)) by (apply Z.pow_pos_nonneg; lia).
  assert (Q : 2 ^ (- e + 1) = 2 * 2 ^ (- e))
    by (rewrite Z.pow_add_r by lia; lia).
  assert (Hm : Zpos m <= N * 2 ^ (- e)).
  { assert (E1 : 2 ^ (- eT) * 2 ^ (eT - c) = 2 ^ (- e) * 2 ^ (e - c))
      by (rewrite <- !Z.pow_add_r by lia; f_equal; lia).
    assert (P2 : 0 < 2 ^ (e - c)) by (apply Z.pow_pos_nonneg; lia).
    rewrite HN, <- Z.mul_assoc, E1 in Hv. nia. }
  assert (Hn : round_half_up (Zpos m) (- e) <= N).
  { unfold round_half_up.
    assert (L : (2 * Zpos m + 2 ^ (- e)) / 2 ^ (- e + 1) < N + 1); [| lia].
    apply Z.div_lt_upper_bound; [lia |]. nia. }
  assert (Hn0 : 0 <= round_half_up (Zpos m) (- e)).
  { unfold round_half_up. apply Z.div_pos; lia. }
  destruct (round_half_up (Zpos m) (- e) =? 0) eqn:Z0.
  - split; exact I.
  - apply Z.eqb_neq in Z0.
    apply (of_Z_at_most mT eT N); try assumption; lia.
Qed.

Lemma SFdiv_core_by_ten_loc (m : positive) (e : Z) :
  2 ^ 52 <= Zpos m < 2 ^ 53 -> -1070 <= e ->
  exists l : location,
    SFdiv_core_binary prec emax (Zpos m) e (Zpos 5629499534213120) (-49) =
    (Zpos m * 2 ^ 53 / m10, e - 4, l) /\
    (l <> loc_Exact -> Zpos m * 2 ^ 53 / m10 * m10 < Zpos m * 2 ^ 53).
Proof.
  intros Hm He. unfold SFdiv_core_binary.
  assert (D : Zdigits2 (Zpos m) = 53)
    by (cbn [Zdigits2]; apply digits2_pos_unique; change (53 - 1) with 52; lia).
  rewrite D.
  change (Zdigits2 (Zpos 5629499534213120)) with 53.
  rewrite fexp_unfold.
  replace (Z.min (Z.max (53 + e - (53 + -49) - 53) (-1074)) (e - -49))
    with (e - 4) by lia.
  replace (e - -49 - (e - 4)) with 53 by lia.
  rewrite Z.shiftl_mul_pow2 by lia.
  pose proof (Z_div_mod (Zpos m * 2 ^ 53) (Zpos 5629499534213120)
                ltac:(lia)) as DM.
  unfold m10, Z.div.
  destruct (Z.div_eucl (Zpos m * 2 ^ 53) (Zpos 5629499534213120)) as [q r].
  destruct DM as [Eq Hr].
  eexists. split; [reflexivity |].
  unfold new_location. change (Z.even (Zpos 5629499534213120)) with true.
  unfold new_location_even.
  destruct (r =? 0) eqn:R0; [intros X; exfalso; apply X; reflexivity |].
  apply Z.eqb_neq in R0. intros _. lia.
Qed.

Lemma div_10_at_most (mT eT mT' eT' k : Z) (x : number) :
  2 ^ 52 <= mT < 2 ^ 53 ->
  2 ^ 52 <= mT' < 2 ^ 53 ->
  -1074 < eT -> eT <= 971 ->
  0 <= k -> eT' = eT - 49 + k ->
  mT' * 2 ^ k <= mT * m10 ->
  at_most mT' eT' x ->
  exponent_from (-52) x ->
  at_most mT eT (div x (of_Z 10)).
Proof.
  intros HT HT' HeT HeT'' Hk He Hc Hx Hexp. rewrite ten_is.
  destruct x as [s | [|] | | s m e]; try (cbn in Hx; tauto);
    try (destruct s; exact I).
  cbn [exponent_from] in Hexp.
  set (c := Z.min (e - 4) eT).
  destruct (at_most_value mT' eT' s m e (c - 49)
              ltac:(lia) ltac:(lia) ltac:(lia) Hx) as (-> & Hv).
  assert (N : 2 ^ 52 <= Zpos m < 2 ^ 53) by (cbn [at_most] in Hx; lia).
  unfold div, SFdiv. cbn [xorb].
  destruct (SFdiv_core_by_ten_loc m e N ltac:(lia)) as (l & -> & Hl).
  set (q := Zpos m * 2 ^ 53 / m10) in *.
  assert (M : 0 < m10) by (unfold m10; lia).
  assert (Hq : 2 ^ 52 <= q).
  { apply Z.div_le_lower_bound; [exact M |].
    assert (m10 * 2 ^ 52 <= 2 ^ 53 * 2 ^ 52)
      by (apply Z.mul_le_mono_nonneg_r; [lia | unfold m10; cbn; lia]).
    assert (2 ^ 52 * 2 ^ 53 <= Zpos m * 2 ^ 53)
      by (apply Z.mul_le_mono_nonneg_r; lia).
    lia. }
  assert (Hqm : q * m10 <= Zpos m * 2 ^ 53).
  { unfold q. rewrite Z.mul_comm. apply Z.mul_div_le. exact M. }
  assert (P : 0 < 2 ^ (e - 4 - c)) by (apply Z.pow_pos_nonneg; lia).
  assert (E1 : 2 ^ 53 * 2 ^ (e - 4 - c) = 2 ^ (e - (c - 49)))
    by (rewrite <- Z.pow_add_r by lia; f_equal; lia).
  assert (E2 : 2 ^ k * 2 ^ (eT - c) = 2 ^ (eT' - (c - 49)))
    by (rewrite <- Z.pow_add_r by lia; f_equal; lia).
  assert (P2 : 0 <= 2 ^ (eT - c)) by (apply Z.pow_nonneg; lia).
  assert (S1 : mT' * 2 ^ k * 2 ^ (eT - c) <= mT * m10 * 2 ^ (eT - c))
    by (apply Z.mul_le_mono_nonneg_r; [exact P2 | exact Hc]).
  assert (S2 : Zpos m * (2 ^ 53 * 2 ^ (e - 4 - c)) <=
               mT' * (2 ^ k * 2 ^ (eT - c)))
    by (rewrite E1, E2; exact Hv).
  apply (binary_round_aux_upper q (e - 4) l mT eT c); [exact Hq | lia .. | |].
  - assert (S3 : q * m10 * 2 ^ (e - 4 - c) <=
                 Zpos m * 2 ^ 53 * 2 ^ (e - 4 - c))
      by (apply Z.mul_le_mono_nonneg_r; lia).
    assert (S4 : q * 2 ^ (e - 4 - c) * m10 <= mT * 2 ^ (eT - c) * m10) by lia.
    apply Z.mul_le_mono_pos_r in S4; [exact S4 | exact M].
  - intros NE. specialize (Hl NE).
    assert (S3 : q * m10 * 2 ^ (e - 4 - c) <
                 Zpos m * 2 ^ 53 * 2 ^ (e - 4 - c))
      by (apply Z.mul_lt_mono_pos_r; lia).
    assert (S4 : q * 2 ^ (e - 4 - c) * m10 < mT * 2 ^ (eT - c) * m10) by lia.
    apply Z.mul_lt_mono_pos_r in S4; [exact S4 | exact M].
Qed.

Lemma round1_keeps_upper_bound (T : Z) (x : number) :
  integral_bound T = true ->
  is_number x = true ->
  sign_clear x ->
  leb x (of_Z T) = true ->
  leb (round1 x) (of_Z T) = true.
Proof.
  unfold integral_bound.
  destruct (of_Z T) as [| | | [|] pT eT] eqn:ET; try discriminate.
  destruct (of_Z (10 * T)) as [| | | [|] pT' eT'] eqn:ET'; try discriminate.
  cbv zeta. intros C V S G.
  repeat (apply andb_prop in C; destruct C as [C ?]).
  repeat match goal with
         | H : (_ <=? _) = true |- _ => apply Z.leb_le in H
         | H : (_ <? _) = true |- _ => apply Z.ltb_lt in H
         | H : (_ =? _) = true |- _ => apply Z.eqb_eq in H
         end.
  apply at_most_leb.
  assert (Y : at_most (Zpos pT') eT' (mul x (of_Z 10))).
  { apply (mul_10_at_most (Zpos pT) eT (Zpos pT') eT' (eT' - eT + 49));
      try lia.
    apply leb_at_most; assumption. }
  destruct (Math_round_at_most (Zpos pT') eT' (10 * T) _
              ltac:(lia) ltac:(lia) ltac:(lia) ltac:(lia) ltac:(lia) Y)
    as [Z1 Z2].
  apply (div_10_at_most (Zpos pT) eT (Zpos pT') eT' (eT' - eT + 49));
    try lia; assumption.
Qed.

End RoundingProofs.

(* ================================================================== *)
(** * The rounded magnitude against the decisions *)
(* ================================================================== *)

Module DisplayedProperties.

Import Number Apca NumberOrder Bounds RoundingProofs.
Import PolicyProperties EvaluatorProofs.

Lemma ltb_leb (x y : number) : ltb x y = true -> leb x y = true.
Proof.
  rewrite ltb_key, leb_key. intros (a & b & Ha & Hb & H).
  exists a, b. repeat split; try assumption. left; exact H.
Qed.

Lemma not_geb_leb (x y : number) :
  x <> NaN -> y <> NaN -> geb x y = false -> leb x y = true.
Proof.
  intros Hx Hy G. apply ltb_leb.
  destruct (ltb_or_geb x y) as [L | G']; try congruence.
  - unfold NaN in Hx. destruct x; cbn; congruence.
  - unfold NaN in Hy. destruct y; cbn; congruence.
Qed.

Lemma Math_abs_is_number (x : number) :
  is_number x = true -> is_number (Math_abs x) = true.
Proof. destruct x; intros H; exact H. Qed.

Lemma Math_abs_not_NaN (x : number) : x <> NaN -> Math_abs x <> NaN.
Proof. unfold NaN. destruct x; cbn; intros H; try discriminate; exact H. Qed.

Lemma of_Z_not_NaN (T : Z) : integral_bound T = true -> of_Z T <> NaN.
Proof.
  unfold integral_bound, NaN. destruct (of_Z T); discriminate.
Qed.

Lemma getMinimumLc_integral
    (useCase : UseCase) (fontSize : number) (fontWeight : FontWeight) :
  exists T : Z,
    getMinimumLc useCase fontSize fontWeight = of_Z T /\
    integral_bound T = true.
Proof.
  destruct (getMinimumLc_values useCase fontSize fontWeight)
    as [-> | [-> | ->]]; eexists; split; reflexivity.
Qed.

(** X14.  The magnitude a result shows never contradicts its verdict by
    more than equality: for a score that is a number of the format, a
    passing result has a returned [lcAbsolute] of at least the returned
    [minimumLc], and a failing result (the score not being NaN) has one of
    at most [minimumLc]. *)
Theorem displayed_magnitude_against_minimum
    (ext : Externals) (fg bg : string) (opts : Options) (score : number) :
  calcAPCA fg bg = Some score ->
  is_number score = true ->
  exists r : ContrastResult,
    checkContrast fg bg opts = Some r /\
    (passes r = true -> geb (lcAbsolute r) (minimumLc r) = true) /\
    (passes r = false -> score <> NaN ->
     leb (lcAbsolute r) (minimumLc r) = true).
Proof.
  intros H V. rewrite (checkContrast_returns fg bg opts score H). cbv zeta.
  eexists; split; [reflexivity |]. cbn [passes lcAbsolute minimumLc].
  destruct (getMinimumLc_integral
              (or_default body_text (useCase opts))
              (or_default (of_Z 16) (fontSize opts))
              (or_default normal (fontWeight opts))) as (T & -> & HT).
  split.
  - intros P. apply round1_keeps_lower_bound;
      [exact HT | apply Math_abs_is_number, V | exact P].
  - intros P N. apply round1_keeps_upper_bound;
      [exact HT | apply Math_abs_is_number, V | apply EvaluatorProperties.Math_abs_is_sign_clear |].
    apply not_geb_leb;
      [apply Math_abs_not_NaN, N | apply of_Z_not_NaN, HT | exact P].
Qed.

(** The score 74.96 under the threshold 75: the pair fails and shows 75.0,
    which is at most 75; the score 75.04 passes and shows 75.0 as well. *)
Lemma displayed_magnitude_against_minimum_witness :
  (exists r : ContrastResult,
      @checkContrast (Standin.two_colour (Standin.decimal 7496 2))
        "#000000" "#ffffff" no_options = Some r /\
      passes r = false /\
      leb (lcAbsolute r) (minimumLc r) = true) /\
  (exists r : ContrastResult,
      @checkContrast (Standin.two_colour (Standin.decimal 7504 2))
        "#000000" "#ffffff" no_options = Some r /\
      passes r = true /\
      geb (lcAbsolute r) (minimumLc r) = true).
Proof.
  split.
  - destruct (displayed_magnitude_against_minimum
                (Standin.two_colour (Standin.decimal 7496 2))
                "#000000" "#ffffff" no_options _ eq_refl eq_refl)
      as (r & Hr & _ & Hf).
    exists r. split; [exact Hr |].
    assert (P : passes r = false).
    { assert (X : Some r = Some r) by reflexivity.
      rewrite <- Hr in X at 1. vm_compute in X. injection X as <-.
      reflexivity. }
    split; [exact P | apply Hf; [exact P | discriminate]].
  - destruct (displayed_magnitude_against_minimum
                (Standin.two_colour (Standin.decimal 7504 2))
                "#000000" "#ffffff" no_options _ eq_refl eq_refl)
      as (r & Hr & Hp & _).
    exists r. split; [exact Hr |].
    assert (P : passes r = true).
    { assert (X : Some r = Some r) by reflexivity.
      rewrite <- Hr in X at 1. vm_compute in X. injection X as <-.
      reflexivity. }
    split; [exact P | exact (Hp P)].
Defined.

(** X15.  The magnitude a result shows lies in the closed range of its
    rating: at least 90 for AAA, from 75 to 90 for AA, from 60 to 75 for A,
    and at most 60 for fail (the score not being NaN).  The upper ends are
    reached: a score just below a tier is shown as the tier. *)
Theorem displayed_magnitude_within_tier
    (ext : Externals) (fg bg : string) (opts : Options) (score : number) :
  calcAPCA fg bg = Some score ->
  is_number score = true ->
  exists r : ContrastResult,
    checkContrast fg bg opts = Some r /\
    (rating r = rating_AAA -> geb (lcAbsolute r) (of_Z 90) = true) /\
    (rating r = rating_AA ->
     geb (lcAbsolute r) (of_Z 75) = true /\
     leb (lcAbsolute r) (of_Z 90) = true) /\
    (rating r = rating_A ->
     geb (lcAbsolute r) (of_Z 60) = true /\
     leb (lcAbsolute r) (of_Z 75) = true) /\
    (rating r = rating_fail -> score <> NaN ->
     leb (lcAbsolute r) (of_Z 60) = true).
Proof.
  intros H V. rewrite (checkContrast_returns fg bg opts score H). cbv zeta.
  eexists; split; [reflexivity |]. cbn [rating lcAbsolute].
  set (m := Math_abs score).
  assert (Vm : is_number m = true) by apply Math_abs_is_number, V.
  assert (Sm : sign_clear m) by apply EvaluatorProperties.Math_abs_is_sign_clear.
  assert (lo : forall T, integral_bound T = true ->
                 geb m (of_Z T) = true -> geb (round1 m) (of_Z T) = true)
    by (intros T HT G; apply round1_keeps_lower_bound; assumption).
  assert (hi : forall T, integral_bound T = true -> m <> NaN ->
                 geb m (of_Z T) = false -> leb (round1 m) (of_Z T) = true).
  { intros T HT N G. apply round1_keeps_upper_bound; try assumption.
    apply not_geb_leb; [exact N | apply of_Z_not_NaN, HT | exact G]. }
  assert (num : forall c, geb m c = true -> m <> NaN)
    by (intros c G E; rewrite E in G; destruct c; discriminate).
  unfold getRating.
  destruct (geb m (of_Z 90)) eqn:G90.
  { repeat apply conj; try discriminate. intros _. apply lo; auto. }
  destruct (geb m (of_Z 75)) eqn:G75.
  { repeat apply conj; try discriminate. intros _.
    split; [apply lo | apply hi]; eauto. }
  destruct (geb m (of_Z 60)) eqn:G60.
  { repeat apply conj; try discriminate. intros _.
    split; [apply lo | apply hi]; eauto. }
  repeat apply conj; try discriminate. intros _ N.
  apply hi; auto. apply Math_abs_not_NaN, N.
Qed.

(** A score of 89.96 is rated AA and shown as 90.0. *)
Lemma displayed_magnitude_within_tier_witness :
  exists r : ContrastResult,
    @checkContrast (Standin.two_colour (Standin.decimal 8996 2))
      "#000000" "#ffffff" no_options = Some r /\
    rating r = rating_AA /\
    lcAbsolute r = of_Z 90 /\
    geb (lcAbsolute r) (of_Z 75) = true /\
    leb (lcAbsolute r) (of_Z 90) = true.
Proof.
  destruct (displayed_magnitude_within_tier
              (Standin.two_colour (Standin.decimal 8996 2))
              "#000000" "#ffffff" no_options _ eq_refl eq_refl)
    as (r & Hr & _ & HAA & _).
  exists r. split; [exact Hr |].
  assert (X : Some r = Some r) by reflexivity.
  rewrite <- Hr in X at 1. vm_compute in X. injection X as <-.
  split; [reflexivity |]. split; [reflexivity |]. apply HAA. reflexivity.
Defined.

End DisplayedProperties.

(* ================================================================== *)
(** * The returned signed score against the decisions *)
(* ================================================================== *)

Module SignedProperties.

Import Number Apca NumberOrder Bounds RoundingProofs.
Import PolicyProperties EvaluatorProofs DisplayedProperties.

Lemma binary_round_aux_opp (m e : Z) (l : location) :
  binary_round_aux prec emax true m e l =
  neg (binary_round_aux prec emax false m e l).
Proof.
  unfold binary_round_aux.
  destruct (shr_fexp prec emax m e l) as [mrs' e'].
  destruct (shr_fexp prec emax _ e' loc_Exact) as [mrs'' e''].
  destruct (shr_m mrs''); try reflexivity.
  destruct (e'' <=? emax - prec); reflexivity.
Qed.

Lemma mul_10_neg (x : number) :
  mul (neg x) (of_Z 10) = neg (mul x (of_Z 10)).
Proof.
  rewrite ten_is. destruct x as [s | s | | s m e]; try destruct s;
    try reflexivity; unfold mul, neg, SFmul, SFopp; cbn [xorb negb].
  - rewrite binary_round_aux_opp.
    destruct (binary_round_aux prec emax false _ _ _) as [[|] | [|] | | [|] ? ?];
      reflexivity.
  - apply binary_round_aux_opp.
Qed.

Lemma div_10_neg (x : number) :
  div (neg x) (of_Z 10) = neg (div x (of_Z 10)).
Proof.
  rewrite ten_is. destruct x as [s | s | | s m e]; try destruct s;
    try reflexivity; unfold div, neg, SFdiv, SFopp; cbn [xorb negb];
    destruct (SFdiv_core_binary prec emax (Zpos m) e _ _) as [[mz ez] lz].
  - rewrite binary_round_aux_opp.
    destruct (binary_round_aux prec emax false _ _ _) as [[|] | [|] | | [|] ? ?];
      reflexivity.
  - apply binary_round_aux_opp.
Qed.

Lemma of_Z_opp (n : Z) : 0 < n -> of_Z (- n) = neg (of_Z n).
Proof.
  intros Hn. destruct n as [| p | p]; try lia.
  unfold of_Z, binary_normalize, binary_round. cbn [Z.opp].
  destruct (shl_align p 0 _) as [mz ez].
  apply binary_round_aux_opp.
Qed.

(** [ceil (m / 2^k - 1/2)], the magnitude [Math.round] gives a negative
    value. *)
Lemma round_half_up_neg (m : positive) (k : Z) :
  0 < k ->
  exists n' : Z,
    round_half_up (Zneg m) k = - n' /\ 0 <= n' /\
    (forall N, N * 2 ^ k <= Zpos m -> N <= n') /\
    (forall N, 0 <= N -> Zpos m <= N * 2 ^ k -> n' <= N).
Proof.
  intros Hk. unfold round_half_up.
  assert (P : 0 < 2 ^ k) by (apply Z.pow_pos_nonneg; lia).
  assert (Q : 2 ^ (k + 1) = 2 * 2 ^ k) by (rewrite Z.pow_add_r by lia; lia).
  set (q := (2 * Zneg m + 2 ^ k) / 2 ^ (k + 1)).
  assert (Hq1 : 2 ^ (k + 1) * q <= 2 * Zneg m + 2 ^ k)
    by (apply Z.mul_div_le; lia).
  assert (Hq2 : 2 * Zneg m + 2 ^ k < 2 ^ (k + 1) * (q + 1)).
  { pose proof (Z.mul_succ_div_gt (2 * Zneg m + 2 ^ k) (2 ^ (k + 1))
                  ltac:(lia)) as G. fold q in G. lia. }
  exists (- q). split; [lia |].
  assert (Zneg m = - Zpos m) by reflexivity.
  repeat split.
  - nia.
  - intros N HN. nia.
  - intros N HN0 HN. nia.
Qed.

Lemma Math_round_neg_at_least (mT eT N : Z) (m : positive) (e : Z) :
  2 ^ 52 <= mT < 2 ^ 53 ->
  -1074 < eT -> eT <= 0 ->
  mT = N * 2 ^ (- eT) -> 0 < N ->
  at_least mT eT (S754_finite false m e) ->
  exists z : number,
    Math_round (S754_finite true m e) = neg z /\ at_least mT eT z.
Proof.
  intros HT HeT HeT0 HN HNpos Hx.
  destruct (at_least_value mT eT false m e HT Hx) as (_ & Hle & Hv).
  cbn [Math_round]. destruct (0 <=? e) eqn:E0.
  { exists (S754_finite false m e). split; [reflexivity | exact Hx]. }
  apply Z.leb_gt in E0. cbn [cond_Zopp Z.opp].
  destruct (round_half_up_neg m (- e) ltac:(lia)) as (n' & -> & Hn0 & Hlo & _).
  assert (Hn : N <= n').
  { apply Hlo.
    assert (P : 0 < 2 ^ (- e)) by (apply Z.pow_pos_nonneg; lia).
    assert (E1 : 2 ^ (- eT) = 2 ^ (- e) * 2 ^ (e - eT))
      by (rewrite <- Z.pow_add_r by lia; f_equal; lia).
    assert (P2 : 0 < 2 ^ (e - eT)) by (apply Z.pow_pos_nonneg; lia).
    rewrite HN, E1 in Hv. nia. }
  destruct (- n' =? 0) eqn:Z0; [apply Z.eqb_eq in Z0; lia |].
  exists (of_Z n'). split; [apply of_Z_opp; lia |].
  apply (of_Z_at_least mT eT N); try assumption; lia.
Qed.

Lemma Math_round_neg_at_most (mT eT N : Z) (m : positive) (e : Z) :
  2 ^ 52 <= mT < 2 ^ 53 ->
  -1074 < eT -> eT <= 0 ->
  mT = N * 2 ^ (- eT) -> 0 < N ->
  at_most mT eT (S754_finite false m e) ->
  exists z : number,
    Math_round (S754_finite true m e) = neg z /\
    at_most mT eT z /\ exponent_from (-52) z.
Proof.
  intros HT HeT HeT0 HN HNpos Hx.
  set (c := Z.min e eT).
  destruct (at_most_value mT eT false m e c
              ltac:(lia) ltac:(lia) ltac:(lia) Hx) as (_ & Hv).
  cbn [Math_round]. destruct (0 <=? e) eqn:E0.
  { apply Z.leb_le in E0. exists (S754_finite false m e).
    split; [reflexivity |]. split; [exact Hx | cbn; lia]. }
  apply Z.leb_gt in E0. cbn [cond_Zopp Z.opp].
  destruct (round_half_up_neg m (- e) ltac:(lia)) as (n' & -> & Hn0 & _ & Hhi).
  assert (Hn : n' <= N).
  { apply Hhi; [lia |].
    assert (P : 0 < 2 ^ (- e)) by (apply Z.pow_pos_nonneg; lia).
    assert (E1 : 2 ^ (- eT) * 2 ^ (eT - c) = 2 ^ (- e) * 2 ^ (e - c))
      by (rewrite <- !Z.pow_add_r by lia; f_equal; lia).
    assert (P2 : 0 < 2 ^ (e - c)) by (apply Z.pow_pos_nonneg; lia).
    rewrite HN, <- Z.mul_assoc, E1 in Hv. nia. }
  destruct (- n' =? 0) eqn:Z0.
  - exists (S754_zero false). split; [reflexivity |]. split; exact I.
  - apply Z.eqb_neq in Z0.
    exists (of_Z n'). split; [apply of_Z_opp; lia |].
    apply (of_Z_at_most mT eT N); try assumption; lia.
Qed.

Lemma at_least_abs (mT eT : Z) (x : number) :
  at_least mT eT x -> Math_abs x = x.
Proof. destruct x as [s | [|] | | [|] m e]; cbn; tauto || reflexivity. Qed.

Lemma at_most_abs (mT eT : Z) (x : number) :
  at_most mT eT x -> at_most mT eT (Math_abs x).
Proof. destruct x as [s | [|] | | [|] m e]; cbn; tauto. Qed.

(** The magnitude of the rounded value keeps a lower bound of the
    magnitude. *)
Lemma round1_magnitude_lower (T : Z) (x : number) :
  integral_bound T = true ->
  is_number x = true ->
  geb (Math_abs x) (of_Z T) = true ->
  geb (Math_abs (round1 x)) (of_Z T) = true.
Proof.
  intros HT V G.
  destruct x as [s | s | | s m e].
  - rewrite <- G. destruct s; reflexivity.
  - rewrite <- G. destruct s; reflexivity.
  - rewrite <- G. reflexivity.
  - destruct s.
    + (* a negative number: the rounding of its opposite, up to ties *)
      change (Math_abs (S754_finite true m e)) with (S754_finite false m e) in G.
      change (S754_finite true m e) with (neg (S754_finite false m e)).
      unfold round1. rewrite mul_10_neg.
      revert HT G. unfold integral_bound.
      destruct (of_Z T) as [| | | [|] pT eT] eqn:ET; try discriminate.
      destruct (of_Z (10 * T)) as [| | | [|] pT' eT'] eqn:ET'; try discriminate.
      cbv zeta. intros C G.
      repeat (apply andb_prop in C; destruct C as [C ?]).
      repeat match goal with
             | H : (_ <=? _) = true |- _ => apply Z.leb_le in H
             | H : (_ <? _) = true |- _ => apply Z.ltb_lt in H
             | H : (_ =? _) = true |- _ => apply Z.eqb_eq in H
             end.
      assert (X : at_least (Zpos pT) eT (S754_finite false m e))
        by (apply geb_at_least; try assumption; lia).
      assert (Y : at_least (Zpos pT') eT' (mul (S754_finite false m e) (of_Z 10))).
      { apply (mul_10_at_least (Zpos pT) eT (Zpos pT') eT' (eT' - eT + 49));
          try lia. exact X. }
      apply at_least_geb.
      destruct (mul (S754_finite false m e) (of_Z 10))
        as [sy | [|] | | [|] my ey]; try (cbn in Y; tauto); try exact I.
      destruct (Math_round_neg_at_least (Zpos pT') eT' (10 * T) my ey
                    ltac:(lia) ltac:(lia) ltac:(lia) ltac:(lia) ltac:(lia) Y)
        as (z & Ez & Hz).
      change (neg (S754_finite false my ey)) with (S754_finite true my ey).
      rewrite Ez, div_10_neg, EvaluatorProofs.Math_abs_neg.
      assert (W : at_least (Zpos pT) eT (div z (of_Z 10))).
      { apply (div_10_at_least (Zpos pT) eT (Zpos pT') eT' (eT' - eT + 49));
          try lia. exact Hz. }
      rewrite (at_least_abs _ _ _ W). exact W.
    + (* a positive number *)
      change (Math_abs (S754_finite false m e)) with (S754_finite false m e) in G.
      pose proof (round1_keeps_lower_bound T _ HT V G) as L.
      assert (S : sign_clear (round1 (S754_finite false m e)))
        by (apply EvaluatorProofs.round1_sign_clear; reflexivity).
      rewrite (EvaluatorProofs.Math_abs_sign_clear _ S). exact L.
Qed.

(** The magnitude of the rounded value keeps an upper bound of the
    magnitude. *)
Lemma round1_magnitude_upper (T : Z) (x : number) :
  integral_bound T = true ->
  is_number x = true ->
  leb (Math_abs x) (of_Z T) = true ->
  leb (Math_abs (round1 x)) (of_Z T) = true.
Proof.
  intros HT V G.
  destruct x as [s | s | | s m e].
  - rewrite <- G. destruct s; reflexivity.
  - rewrite <- G. destruct s; reflexivity.
  - rewrite <- G. reflexivity.
  - destruct s.
    + (* a negative number: the rounding of its opposite, up to ties *)
      change (Math_abs (S754_finite true m e)) with (S754_finite false m e) in G.
      change (S754_finite true m e) with (neg (S754_finite false m e)).
      unfold round1. rewrite mul_10_neg.
      revert HT G. unfold integral_bound.
      destruct (of_Z T) as [| | | [|] pT eT] eqn:ET; try discriminate.
      destruct (of_Z (10 * T)) as [| | | [|] pT' eT'] eqn:ET'; try discriminate.
      cbv zeta. intros C G.
      repeat (apply andb_prop in C; destruct C as [C ?]).
      repeat match goal with
             | H : (_ <=? _) = true |- _ => apply Z.leb_le in H
             | H : (_ <? _) = true |- _ => apply Z.ltb_lt in H
             | H : (_ =? _) = true |- _ => apply Z.eqb_eq in H
             end.
      assert (X : at_most (Zpos pT) eT (S754_finite false m e))
        by (apply leb_at_most; [exact V | reflexivity | exact G]).
      assert (Y : at_most (Zpos pT') eT' (mul (S754_finite false m e) (of_Z 10))).
      { apply (mul_10_at_most (Zpos pT) eT (Zpos pT') eT' (eT' - eT + 49));
          try lia. exact X. }
      apply at_most_leb.
      destruct (mul (S754_finite false m e) (of_Z 10))
        as [sy | [|] | | [|] my ey]; try (cbn in Y; tauto).
      destruct (Math_round_neg_at_most (Zpos pT') eT' (10 * T) my ey
                  ltac:(lia) ltac:(lia) ltac:(lia) ltac:(lia) ltac:(lia) Y)
        as (z & Ez & Hz & Hz').
      change (neg (S754_finite false my ey)) with (S754_finite true my ey).
      rewrite Ez, div_10_neg, EvaluatorProofs.Math_abs_neg.
      apply at_most_abs.
      apply (div_10_at_most (Zpos pT) eT (Zpos pT') eT' (eT' - eT + 49));
        try lia; assumption.
    + (* a positive number *)
      change (Math_abs (S754_finite false m e)) with (S754_finite false m e) in G.
      assert (S0 : sign_clear (S754_finite false m e)) by reflexivity.
      pose proof (round1_keeps_upper_bound T _ HT V S0 G) as L.
      assert (S : sign_clear (round1 (S754_finite false m e)))
        by (apply EvaluatorProofs.round1_sign_clear; reflexivity).
      rewrite (EvaluatorProofs.Math_abs_sign_clear _ S). exact L.
Qed.

(** X16.  The returned [lc] stays on the side of every threshold its score
    is on, whatever its sign: for a score that is a number of the format,
    the magnitude of the returned [lc] is at least the returned
    [minimumLc] when the pair passes and at most [minimumLc] when it fails
    (the score not being NaN); it is at least 90, 75 or 60 when the rating
    is AAA, AA or A, and at most 90, 75 or 60 when the rating is AA, A or
    fail.  So where [lcAbsolute] and the magnitude of [lc] differ, they
    still agree with the verdict and the rating. *)
Theorem signed_score_against_decisions
    (ext : Externals) (fg bg : string) (opts : Options) (score : number) :
  calcAPCA fg bg = Some score ->
  is_number score = true ->
  exists r : ContrastResult,
    checkContrast fg bg opts = Some r /\
    (passes r = true -> geb (Math_abs (lc r)) (minimumLc r) = true) /\
    (passes r = false -> score <> NaN ->
     leb (Math_abs (lc r)) (minimumLc r) = true) /\
    (rating r = rating_AAA -> geb (Math_abs (lc r)) (of_Z 90) = true) /\
    (rating r = rating_AA ->
     geb (Math_abs (lc r)) (of_Z 75) = true /\
     leb (Math_abs (lc r)) (of_Z 90) = true) /\
    (rating r = rating_A ->
     geb (Math_abs (lc r)) (of_Z 60) = true /\
     leb (Math_abs (lc r)) (of_Z 75) = true) /\
    (rating r = rating_fail -> score <> NaN ->
     leb (Math_abs (lc r)) (of_Z 60) = true).
Proof.
  intros H V. rewrite (checkContrast_returns fg bg opts score H). cbv zeta.
  eexists; split; [reflexivity |]. cbn [passes lc minimumLc rating].
  set (m := Math_abs score).
  assert (lo : forall T, integral_bound T = true ->
                 geb m (of_Z T) = true ->
                 geb (Math_abs (round1 score)) (of_Z T) = true)
    by (intros T HT G; apply round1_magnitude_lower; assumption).
  assert (hi : forall T, integral_bound T = true -> score <> NaN ->
                 geb m (of_Z T) = false ->
                 leb (Math_abs (round1 score)) (of_Z T) = true).
  { intros T HT N G. apply round1_magnitude_upper; try assumption.
    apply not_geb_leb;
      [apply Math_abs_not_NaN, N | apply of_Z_not_NaN, HT | exact G]. }
  assert (num : forall c, geb m c = true -> score <> NaN).
  { intros c G E. subst m. rewrite E in G. destruct c; discriminate. }
  destruct (getMinimumLc_integral
              (or_default body_text (useCase opts))
              (or_default (of_Z 16) (fontSize opts))
              (or_default normal (fontWeight opts))) as (T & -> & HT).
  split; [intros P; apply lo; assumption |].
  split; [intros P N; apply hi; assumption |].
  unfold getRating.
  destruct (geb m (of_Z 90)) eqn:G90.
  { repeat apply conj; try discriminate. intros _. apply lo; auto. }
  destruct (geb m (of_Z 75)) eqn:G75.
  { repeat apply conj; try discriminate. intros _.
    split; [apply lo | apply hi]; eauto. }
  destruct (geb m (of_Z 60)) eqn:G60.
  { repeat apply conj; try discriminate. intros _.
    split; [apply lo | apply hi]; eauto. }
  repeat apply conj; try discriminate. intros _ N. apply hi; auto.
Qed.

(** A light-on-dark score of -74.75 under the threshold 75: [lc * 10] is
    the tie -747.5, so the result shows [lc = -74.7] next to
    [lcAbsolute = 74.8]; the pair fails and both magnitudes are at most
    75. *)
Lemma signed_score_against_decisions_witness :
  exists r : ContrastResult,
    @checkContrast (Standin.two_colour (Standin.decimal 7475 2))
      "#ffffff" "#000000" no_options = Some r /\
    lc r = Standin.decimal (-747) 1 /\
    lcAbsolute r = Standin.decimal 748 1 /\
    passes r = false /\
    leb (Math_abs (lc r)) (minimumLc r) = true.
Proof.
  destruct (signed_score_against_decisions
              (Standin.two_colour (Standin.decimal 7475 2))
              "#ffffff" "#000000" no_options _ eq_refl eq_refl)
    as (r & Hr & _ & Hf & _).
  exists r. split; [exact Hr |].
  assert (E : lc r = Standin.decimal (-747) 1 /\
              lcAbsolute r = Standin.decimal 748 1 /\ passes r = false).
  { assert (X : Some r = Some r) by reflexivity.
    rewrite <- Hr in X at 1. vm_compute in X. injection X as <-.
    repeat split; vm_compute; reflexivity. }
  destruct E as (E1 & E2 & E3).
  repeat (split; [assumption |]). apply Hf; [exact E3 | discriminate].
Defined.

End SignedProperties.
